(** * Chat-room data-access layer: [core/database/models/chatrooms.py]

    A shallow embedding of the [Chatrooms] model class and of the query
    layer it consumes, followed by the properties of the room lookup, the
    paginated room lister and the recent-activity lister.

    Layout:
    - [Py]: the Python values, exceptions and the few built-ins the code uses;
    - [Sql]: declarative query descriptions and their relational evaluation;
    - [Schema]: the tables the code reads and their rows;
    - [QueryLayer]: the interface of the [MySQL] base class, and [spec_store],
      an instance over an in-memory database;
    - [Chatrooms]: the methods of the class, written once over [QueryLayer];
    - [Rel]: what each query returns, written over the typed rows;
    - [Examples]: a small database;
    - [SqlFacts], [RelFacts]: the evaluation of the queries agrees with [Rel];
    - the properties of the three operations. *)

From Stdlib Require Import ZArith QArith Qround Lia Strings.Ascii.
From Stdlib Require Import Sorting.Sorted Sorting.Permutation.
From stdpp Require Import base tactics option list strings sorting.

Local Open Scope string_scope.
Local Open Scope list_scope.
Local Open Scope Z_scope.

(* ===================================================================== *)
(** ** Python values and exceptions *)
(* ===================================================================== *)

Module Py.

(** The values that flow through the class: [None], integers, strings, lists
    and dictionaries.  A dictionary is kept as an association list in
    insertion order, as Python dictionaries and SQL result rows are. *)
#[local] Set Warnings "-register-all".
Inductive value : Type :=
  | VNone
  | VInt (z : Z)
  | VStr (s : string)
  | VList (l : list value)
  | VDict (d : list (string * value)).

Abbreviation dict := (list (string * value)).

(** The exception classes that can surface in this module.  All of them are
    subclasses of [Exception].  [ValueError] is what a validation of the
    arguments would raise; no method of the class raises it. *)
Inductive exn : Type :=
  | ZeroDivisionError
  | OverflowError
  | TypeError
  | KeyError (k : string)
  | ValueError
  | DatabaseError (msg : string).

(** The outcome of running a piece of Python: a value, or a raised exception. *)
Inductive res (A : Type) : Type :=
  | Ok (a : A)
  | Raise (e : exn).
Arguments Ok {A} a.
Arguments Raise {A} e.

#[export] Instance res_ret : MRet res := λ A, Ok.
#[export] Instance res_bind : MBind res :=
  λ A B f m, match m with Ok a => f a | Raise e => Raise e end.

(** [try: body / except Exception as e: handler e]. *)
Definition try_except {A} (body : res A) (handler : exn → res A) : res A :=
  match body with
  | Ok a => Ok a
  | Raise e => handler e
  end.

(** [d[k]] for a dictionary held as an association list. *)
Fixpoint dict_lookup (k : string) (d : dict) : option value :=
  match d with
  | [] => None
  | (k', v) :: d' => if String.eqb k k' then Some v else dict_lookup k d'
  end.

(** [d[k] = v]: replaces the binding of [k], or appends a new one. *)
Fixpoint dict_set (k : string) (v : value) (d : dict) : dict :=
  match d with
  | [] => [(k, v)]
  | (k', v') :: d' =>
      if String.eqb k k' then (k, v) :: d' else (k', v') :: dict_set k v d'
  end.

(** [x[k]]: [KeyError] on a missing key, [TypeError] when [x] is no dict
    (as for [None["count_id"]]). *)
Definition getitem (x : value) (k : string) : res value :=
  match x with
  | VDict d =>
      match dict_lookup k d with
      | Some v => Ok v
      | None => Raise (KeyError k)
      end
  | _ => Raise TypeError
  end.

(** [x.get(k)]: [None] on a missing key. *)
Definition get (x : value) (k : string) : res value :=
  match x with
  | VDict d => Ok (default VNone (dict_lookup k d))
  | _ => Raise TypeError
  end.

(** [x[k] = v] on a dictionary. *)
Definition setitem (x : value) (k : string) (v : value) : res value :=
  match x with
  | VDict d => Ok (VDict (dict_set k v d))
  | _ => Raise TypeError
  end.

(** Truth value of an object, as tested by [if x:]. *)
Definition truthy (x : value) : bool :=
  match x with
  | VNone => false
  | VInt z => negb (z =? 0)
  | VStr s => negb (String.eqb s "")
  | VList l => match l with [] => false | _ => true end
  | VDict d => match d with [] => false | _ => true end
  end.

(** [x > n] for an integer literal [n]; comparing [None], a string, a list or
    a dict with an integer raises [TypeError]. *)
Definition gt (x : value) (n : Z) : res bool :=
  match x with
  | VInt z => Ok (n <? z)
  | _ => Raise TypeError
  end.

(** [a / b] on integers is true division: the result is the float (IEEE 754
    binary64) nearest to the exact quotient, ties going to the even mantissa.
    A float is kept as the rational it stands for, [m * 2 ^ e] with a mantissa
    [m] of at most 53 bits and an exponent [e] of at least -1074. *)

(** The integer nearest to [n / d], for [0 <= n] and [0 < d]; a tie goes to
    the even one. *)
Definition round_half_even (n d : Z) : Z :=
  let q := n / d in
  let r := n mod d in
  if 2 * r <? d then q
  else if d <? 2 * r then q + 1
  else if Z.even q then q else q + 1.

(** The integer part of the binary logarithm of [a / b], for [0 < a] and
    [0 < b]. *)
Definition log2_ratio (a b : Z) : Z :=
  let d := Z.log2 a - Z.log2 b in
  if a * 2 ^ Z.max (- d) 0 <? b * 2 ^ Z.max d 0 then d - 1 else d.

(** The float nearest to [a / b], for [0 < a] and [0 < b], as mantissa and
    exponent.  The exponent leaves 53 bits to the mantissa and stops at
    -1074, where the quotient is subnormal or rounds to 0. *)
Definition nearest_float (a b : Z) : Z * Z :=
  let e := Z.max (log2_ratio a b - 52) (-1074) in
  let m := if 0 <=? e then round_half_even a (b * 2 ^ e)
           else round_half_even (a * 2 ^ (- e)) b in
  (m, e).

Definition float_value (m e : Z) : Q :=
  if 0 <=? e then inject_Z (m * 2 ^ e) else (m # Z.to_pos (2 ^ (- e))).

(** The rounded quotient is beyond the largest float (it is at least
    2^1024). *)
Definition float_overflows (m e : Z) : bool :=
  if 0 <=? e then 2 ^ 1024 <=? m * 2 ^ e else 2 ^ (1024 - e) <=? m.

(** [a / b]: [ZeroDivisionError] for a zero divisor, [OverflowError]
    ("integer division result too large for a float") when the quotient is
    beyond the floats, the nearest float otherwise. *)
Definition truediv (a b : value) : res Q :=
  match a, b with
  | VInt x, VInt y =>
      if y =? 0 then Raise ZeroDivisionError
      else if x =? 0 then Ok 0%Q
      else
        let (m, e) := nearest_float (Z.abs x) (Z.abs y) in
        if float_overflows m e then Raise OverflowError
        else Ok (inject_Z (Z.sgn x * Z.sgn y) * float_value m e)%Q
  | _, _ => Raise TypeError
  end.

(** [math.ceil] of a float: the least integer not below it. *)
Definition math_ceil (q : Q) : value := VInt (Qceiling q).

End Py.
Export Py.

(* ===================================================================== *)
(** ** Query descriptions and their evaluation *)
(* ===================================================================== *)

(** The body of the query builder ([core.database.MySQL]) is not among the
    sources.  The types below are the keyword arguments the class passes to
    it; the functions are its evaluation, modelled from the contract the
    specification gives for [selectOne] and [selectMany] and from the meaning
    of the SQL clauses the arguments name. *)
Module Sql.

(** A condition [{"column": c, "op": o, "value": v}]; ["op"] defaults to
    ["="]. *)
Inductive op : Type := OpEq | OpNe | OpLike.
Record condition : Type := Cond { c_column : string; c_op : op; c_value : value }.

(** A join [[kind, table, "l = r"]], the ON expression split at its [=]. *)
Inductive join_kind : Type := LeftJoin | InnerJoin.

(** A projected column: ["t.c"], or ["t.c as k"]. *)
Record column : Type := ColAs { col_expr : string; col_alias : option string }.
Definition Col (e : string) : column := ColAs e None.
Definition As (e k : string) : column := ColAs e (Some k).

Inductive direction : Type := Asc | Desc.

(** An aggregate [{column: "count"}]. *)
Inductive aggregate : Type := Count.

(** Modelled from the spec: name resolution of the missing query builder;
    [true] when the column name carries a table prefix. *)
Definition qualified (c : string) : bool :=
  match String.index 0 "." c with Some _ => true | None => false end.

(** Modelled from the spec: name resolution of the missing query builder; a
    bare column name belongs to the model's own table. *)
Definition qualify (main c : string) : string :=
  if qualified c then c else main +:+ "." +:+ c.

(** Modelled from the spec: the result rows of the missing query builder
    are keyed by the column name without its table prefix. *)
Definition bare (c : string) : string :=
  match String.index 0 "." c with
  | Some n => String.substring (S n) (String.length c - S n) c
  | None => c
  end.

(** Modelled from the spec: the key of a projected column in a result row of
    the missing query builder, its alias if it has one. *)
Definition col_key (c : column) : string :=
  match col_alias c with Some k => k | None => bare (col_expr c) end.

(** Modelled from the spec: column access in the missing query evaluation.  A
    column a row does not carry reads as NULL; that is how the NULL-padded
    side of a left join is represented. *)
Definition sql_lookup (c : string) (r : dict) : value :=
  default VNone (dict_lookup c r).

(** Modelled from the spec: the operator ["="] of a condition, evaluated by
    the missing query builder as SQL equality; a comparison with NULL is never
    true. *)
Definition sql_eq (a b : value) : bool :=
  match a, b with
  | VInt x, VInt y => x =? y
  | VStr s, VStr t => String.eqb s t
  | _, _ => false
  end.

(** Modelled from the spec: the operator [!=] of the raw query, missing with
    [execute_query]; again never true on NULL. *)
Definition sql_ne (a b : value) : bool :=
  match a, b with
  | VInt x, VInt y => negb (x =? y)
  | VStr s, VStr t => negb (String.eqb s t)
  | _, _ => false
  end.

(** Modelled from the spec: the operator ["like"] of a condition, missing
    with the query builder.  [s LIKE p]: [%] matches any run of characters,
    [_] any one character. *)
Fixpoint like (p s : string) : bool :=
  match p with
  | EmptyString => match s with EmptyString => true | String _ _ => false end
  | String c p' =>
      if Ascii.eqb c "%"%char then
        (fix any (s : string) : bool :=
           like p' s || match s with
                        | EmptyString => false
                        | String _ s' => any s'
                        end) s
      else
        match s with
        | EmptyString => false
        | String d s' => (Ascii.eqb c "_"%char || Ascii.eqb c d) && like p' s'
        end
  end.

(** Modelled from the spec: ["like"] on column values, missing with the query
    builder. *)
Definition sql_like (a b : value) : bool :=
  match a, b with
  | VStr s, VStr p => like p s
  | _, _ => false
  end.

(** Modelled from the spec: one condition [{column, operator, value}] on a
    row, as the missing query builder evaluates it. *)
Definition eval_condition (main : string) (r : dict) (c : condition) : bool :=
  let v := sql_lookup (qualify main (c_column c)) r in
  match c_op c with
  | OpEq => sql_eq v (c_value c)
  | OpNe => sql_ne v (c_value c)
  | OpLike => sql_like v (c_value c)
  end.

(** Modelled from the spec: the missing query builder matches "the
    conjunction of all conditions". *)
Definition eval_conditions (main : string) (cs : list condition) (r : dict) : bool :=
  forallb (eval_condition main r) cs.

(** Modelled from the spec: the order of two column values under ORDER BY,
    missing with the query builder; NULL sorts lowest. *)
Definition sql_leb (a b : value) : bool :=
  match a, b with
  | VNone, _ => true
  | VInt x, VInt y => x <=? y
  | VStr s, VStr t => String.leb s t
  | _, _ => false
  end.

(** Modelled from the spec: whether a row may come before another under
    [order_by], missing with the query builder. *)
Definition before (main : string) (o : string * direction) (r1 r2 : dict) : bool :=
  let k r := sql_lookup (qualify main o.1) r in
  match o.2 with
  | Asc => sql_leb (k r1) (k r2)
  | Desc => sql_leb (k r2) (k r1)
  end.

(** Modelled from the spec: ORDER BY of the missing query builder, as a
    stable insertion sort; this is the insertion. *)
Fixpoint insert_by {A} (bef : A → A → bool) (x : A) (l : list A) : list A :=
  match l with
  | [] => [x]
  | y :: l' => if bef x y then x :: l else y :: insert_by bef x l'
  end.

(** Modelled from the spec: ORDER BY of the missing query builder, the sort. *)
Definition sort_by {A} (bef : A → A → bool) (l : list A) : list A :=
  foldr (insert_by bef) [] l.

(** Modelled from the spec: the optional [orderBy] of the missing
    [selectMany]. *)
Definition order_rows (main : string) (o : option (string * direction))
    (rows : list dict) : list dict :=
  match o with
  | Some o => sort_by (before main o) rows
  | None => rows
  end.

(** Modelled from the spec: a join of the missing query builder once its
    table is read: its kind, the rows (columns carrying the table prefix) and
    the two sides of the ON equality. *)
Record joined : Type :=
  Joined { jd_kind : join_kind; jd_rows : list dict; jd_on : string * string }.

(** Modelled from the spec: left and inner joins of the missing query
    builder.  One row joined with a table gives a row for each match; a left
    join keeps an unmatched row on its own, the other side reading as NULL. *)
Definition join_row (j : joined) (r : dict) : list dict :=
  let m := List.filter
             (λ s, sql_eq (sql_lookup (jd_on j).1 (r ++ s))
                          (sql_lookup (jd_on j).2 (r ++ s)))
             (jd_rows j) in
  match jd_kind j, m with
  | LeftJoin, [] => [r]
  | _, _ => (λ s, r ++ s) <$> m
  end.

(** Modelled from the spec: the joins of the missing query builder, applied
    in the order given. *)
Definition join_all (js : list joined) (rows : list dict) : list dict :=
  foldl (λ acc j, acc ≫= join_row j) rows js.

(** Modelled from the spec: [limit] and [offset] of the missing [selectMany],
    which cut "an ordered page of rows"; a negative number, where the layer
    takes it, counts as 0. *)
Definition window {A} (limit offset : option Z) (rows : list A) : list A :=
  let rows := match offset with Some o => drop (Z.to_nat o) rows | None => rows end in
  match limit with Some n => take (Z.to_nat n) rows | None => rows end.

(** Modelled from the spec: the projection of a row on [columns] by the
    missing query builder. *)
Definition project (main : string) (cols : list column) (r : dict) : dict :=
  (λ c, (col_key c, sql_lookup (qualify main (col_expr c)) r)) <$> cols.

(** Modelled from the spec: COUNT of the missing query builder skips NULL. *)
Definition not_null (v : value) : bool :=
  match v with VNone => false | _ => true end.

(** Modelled from the spec: with [aggregates] the row of the missing
    [selectOne] "contains computed aggregate fields named <agg>_<column>";
    COUNT(c) counts the rows where [c] is not NULL. *)
Definition aggregate_row (main : string) (aggs : list (string * aggregate))
    (rows : list dict) : dict :=
  (λ a, ("count_" +:+ a.1,
         VInt (Z.of_nat (length
           (List.filter (λ r, not_null (sql_lookup (qualify main a.1) r)) rows)))))
  <$> aggs.

(** Modelled from the spec: the rows a query of the missing builder ranges
    over: FROM, JOIN, WHERE. *)
Definition matching (main : string) (rows : list dict) (js : list joined)
    (cs : list condition) : list dict :=
  List.filter (eval_conditions main cs) (join_all js rows).

(** Modelled from the spec: a whole query of the missing builder: FROM, JOIN,
    WHERE, ORDER BY, LIMIT/OFFSET, then the projection. *)
Definition run_select (main : string) (rows : list dict) (js : list joined)
    (cs : list condition) (o : option (string * direction))
    (limit offset : option Z) (cols : list column) : list dict :=
  project main cols <$> window limit offset (order_rows main o (matching main rows js cs)).

End Sql.
Export Sql.

(* ===================================================================== *)
(** ** The tables *)
(* ===================================================================== *)

Module Schema.

(** The columns of each table that the class reads.  Identifiers, statuses
    and flags are integers; [created_time] is a timestamp, kept as an
    integer. *)
Record chatroom_row : Type := {
  cr_id : Z;
  cr_user_id : Z;
  cr_app_id : Z;
  cr_max_round : Z;
  cr_status : Z;
  cr_chat_status : Z;
  cr_active : Z;
  cr_smart_selection : Z
}.

Record app_row : Type := {
  ap_id : Z;
  ap_name : string;
  ap_description : string;
  ap_icon : string;
  ap_icon_background : string;
  ap_status : Z;
  ap_mode : Z
}.

Record agent_row : Type := {
  ag_id : Z;
  ag_app_id : Z;
  ag_obligations : string
}.

Record relation_row : Type := {
  rl_id : Z;
  rl_chatroom_id : Z;
  rl_agent_id : Z
}.

Record app_run_row : Type := {
  rn_id : Z;
  rn_chatroom_id : Z;
  rn_created_time : Z
}.

Record database : Type := {
  chatrooms : list chatroom_row;
  apps : list app_row;
  agents : list agent_row;
  chatroom_agent_relation : list relation_row;
  app_runs : list app_run_row
}.

(** A stored row as the query evaluation sees it: every column under its
    table-qualified name. *)
Definition chatroom_dict (c : chatroom_row) : dict :=
  [ ("chatrooms.id", VInt (cr_id c));
    ("chatrooms.user_id", VInt (cr_user_id c));
    ("chatrooms.app_id", VInt (cr_app_id c));
    ("chatrooms.max_round", VInt (cr_max_round c));
    ("chatrooms.status", VInt (cr_status c));
    ("chatrooms.chat_status", VInt (cr_chat_status c));
    ("chatrooms.active", VInt (cr_active c));
    ("chatrooms.smart_selection", VInt (cr_smart_selection c)) ].

Definition app_dict (a : app_row) : dict :=
  [ ("apps.id", VInt (ap_id a));
    ("apps.name", VStr (ap_name a));
    ("apps.description", VStr (ap_description a));
    ("apps.icon", VStr (ap_icon a));
    ("apps.icon_background", VStr (ap_icon_background a));
    ("apps.status", VInt (ap_status a));
    ("apps.mode", VInt (ap_mode a)) ].

Definition agent_dict (a : agent_row) : dict :=
  [ ("agents.id", VInt (ag_id a));
    ("agents.app_id", VInt (ag_app_id a));
    ("agents.obligations", VStr (ag_obligations a)) ].

Definition relation_dict (l : relation_row) : dict :=
  [ ("chatroom_agent_relation.id", VInt (rl_id l));
    ("chatroom_agent_relation.chatroom_id", VInt (rl_chatroom_id l));
    ("chatroom_agent_relation.agent_id", VInt (rl_agent_id l)) ].

Definition app_run_dict (r : app_run_row) : dict :=
  [ ("app_runs.id", VInt (rn_id r));
    ("app_runs.chatroom_id", VInt (rn_chatroom_id r));
    ("app_runs.created_time", VInt (rn_created_time r)) ].

Definition table_rows (db : database) (t : string) : list dict :=
  if String.eqb t "chatrooms" then chatroom_dict <$> chatrooms db
  else if String.eqb t "apps" then app_dict <$> apps db
  else if String.eqb t "agents" then agent_dict <$> agents db
  else if String.eqb t "chatroom_agent_relation"
       then relation_dict <$> chatroom_agent_relation db
  else if String.eqb t "app_runs" then app_run_dict <$> app_runs db
  else [].

End Schema.
Export Schema.

(* ===================================================================== *)
(** ** The query layer *)
(* ===================================================================== *)

(** What a query joins with: a table, or the grouped sub-select
    [(SELECT g, MAX(a) as m FROM t GROUP BY g) AS n]. *)
Inductive source : Type :=
  | Table (t : string)
  | GroupMax (t g a m n : string).

Record join : Type :=
  Join { j_kind : join_kind; j_source : source; j_on : string * string }.

(** The keyword arguments of [select] and [select_one]. *)
Record query : Type := {
  q_columns : list column;
  q_aggregates : list (string * aggregate);
  q_joins : list join;
  q_conditions : list condition;
  q_order_by : option (string * direction);
  q_limit : option Z;
  q_offset : option Z
}.

(** A raw SQL statement handed to [execute_query]: its FROM table and the
    rest of its clauses. *)
Record statement : Type := { st_from : string; st_query : query }.

(** The methods of the [MySQL] base class and of the sibling models that the
    [Chatrooms] class calls.  The first argument of [select] and [select_one]
    is the table of the model the method is called on.  Every call may
    raise. *)
Class QueryLayer : Type := {
  select_one : string → query → res value;
  select : string → query → res (list value);
  execute_query : statement → res (list value);
  show_chatroom_agent : value → res value
}.

Module Store.

(** Modelled from the spec: GROUP BY on one column in the raw query, whose
    evaluation ([execute_query]) is missing; NULLs form one group. *)
Definition same_group (a b : value) : bool :=
  match a, b with
  | VNone, VNone => true
  | _, _ => sql_eq a b
  end.

(** Modelled from the spec: the groups of the grouped sub-select, missing
    with [execute_query]: each value once. *)
Fixpoint distinct (l : list value) : list value :=
  match l with
  | [] => []
  | x :: l' => x :: List.filter (λ y, negb (same_group x y)) (distinct l')
  end.

(** Modelled from the spec: MAX over a column, missing with [execute_query];
    a NULL is ignored. *)
Definition sql_max (vs : list value) : value :=
  foldr (λ v acc, if sql_leb acc v then v else acc) VNone vs.

(** Modelled from the spec: "per room, the maximum createdTime across its
    run-history records (grouped by room id)"; the sub-select of the raw
    query, missing with [execute_query]. *)
Definition group_max (rows : list dict) (t g a m n : string) : list dict :=
  (λ k, [ (n +:+ "." +:+ g, k);
          (n +:+ "." +:+ m,
           sql_max (sql_lookup (qualify t a) <$>
                    List.filter (λ r, same_group k (sql_lookup (qualify t g) r)) rows)) ])
  <$> distinct (sql_lookup (qualify t g) <$> rows).

(** The specification leaves a negative LIMIT or OFFSET undefined, and the
    query layer that would decide is not among the sources.  What the layer
    does with one is a parameter of the model: it refuses the query with an
    error of the driver, or it takes the query and reads the negative number
    as 0. *)
Inductive negative_policy : Type := Refuses | ReadsAsZero.

Section Spec.
Variable db : database.

(** The agent list helper of the relation model is not part of the class
    under study; any function will do. *)
Variable show_agents : value → res value.

(** What the layer does with a negative LIMIT or OFFSET; either will do. *)
Variable negative : negative_policy.

(** Modelled from the spec: the rows of a table or sub-select as the missing
    query layer reads them. *)
Definition source_rows (s : source) : list dict :=
  match s with
  | Table t => table_rows db t
  | GroupMax t g a m n => group_max (table_rows db t) t g a m n
  end.

(** Modelled from the spec: a join of the missing query layer with its table
    read. *)
Definition resolve (j : join) : joined :=
  Joined (j_kind j) (source_rows (j_source j)) (j_on j).

(** Modelled from the spec: the rows a query description stands for, as the
    missing query layer evaluates it. *)
Definition rows_of (main : string) (q : query) : list dict :=
  run_select main (table_rows db main) (resolve <$> q_joins q)
    (q_conditions q) (q_order_by q) (q_limit q) (q_offset q) (q_columns q).

(** A LIMIT or OFFSET that is absent or not negative. *)
Definition in_range (n : option Z) : bool :=
  match n with Some z => 0 <=? z | None => true end.

(** Whether the layer takes a query with this LIMIT and OFFSET: always when
    neither is negative, and by the parameter [negative] otherwise. *)
Definition accepts (limit offset : option Z) : bool :=
  (in_range limit && in_range offset)
  || match negative with ReadsAsZero => true | Refuses => false end.

(** Modelled from the spec: the body of [MySQL.select] is not in the
    sources.  It "returns an ordered page of rows" matching "the
    conjunction of all conditions".  A query that the layer does not take
    surfaces as an exception of the driver. *)
Definition spec_select (main : string) (q : query) : res (list value) :=
  if accepts (q_limit q) (q_offset q)
  then Ok (VDict <$> rows_of main q)
  else Raise (DatabaseError "negative LIMIT or OFFSET").

(** Modelled from the spec: the body of [MySQL.select_one] is not in the
    sources.  It "returns at most one row matching the conjunction of all
    conditions", absent ([None]) when there is none; with aggregates "the
    row instead contains computed aggregate fields". *)
Definition spec_select_one (main : string) (q : query) : res value :=
  match q_aggregates q with
  | [] =>
      match rows_of main q with
      | r :: _ => Ok (VDict r)
      | [] => Ok VNone
      end
  | aggs =>
      Ok (VDict (aggregate_row main aggs
                   (matching main (table_rows db main) (resolve <$> q_joins q)
                      (q_conditions q))))
  end.

(** Modelled from the spec: the body of [MySQL.execute_query] is not in the
    sources; the statement is evaluated like a [select]. *)
Definition spec_execute_query (s : statement) : res (list value) :=
  spec_select (st_from s) (st_query s).

(** Modelled from the spec: the missing query layer as a whole, over the
    tables of [db]. *)
Definition spec_store : QueryLayer := {|
  select_one := spec_select_one;
  select := spec_select;
  execute_query := spec_execute_query;
  show_chatroom_agent := show_agents
|}.
End Spec.

End Store.
Export Store.

(* ===================================================================== *)
(** ** The [Chatrooms] class *)
(* ===================================================================== *)

Module Chatrooms.

Definition table_name : string := "chatrooms".

(** The tables behind [Agents()] and [ChatroomAgentRelation()].  The name of
    the second is not in the sources; only its columns are used. *)
Definition Agents : string := "agents".
Definition ChatroomAgentRelation : string := "chatroom_agent_relation".

(** [x is not None]. *)
Definition is_not_none (v : value) : bool :=
  match v with VNone => false | _ => true end.

(** [l.append(x)]. *)
Definition append (l x : value) : res value :=
  match l with
  | VList xs => Ok (VList (xs ++ [x]))
  | _ => Raise TypeError
  end.

(** A [for] loop that threads the object it updates. *)
Fixpoint for_each {S A} (body : S → A → res S) (s : S) (l : list A) : res S :=
  match l with
  | [] => Ok s
  | x :: l' => s' ← body s x; for_each body s' l'
  end.

Section Methods.
Context {store : QueryLayer}.

Definition search_agent_id (agent_id : Z) : res value :=
  info ← select_one Agents {|
    q_columns := [Col "id"];
    q_aggregates := []; q_joins := [];
    q_conditions := [Cond "id" OpEq (VInt agent_id)];
    q_order_by := None; q_limit := None; q_offset := None |};
  if is_not_none info
  then Ok (VDict [("status", VInt 1)])
  else Ok (VDict [("status", VInt 0)]).

Definition search_chatrooms_id (chatroom_id user_id : Z) : res value :=
  info ← select_one table_name {|
    q_columns := [Col "id"; Col "max_round"; Col "app_id"; Col "status";
                  Col "smart_selection"];
    q_aggregates := []; q_joins := [];
    q_conditions := [Cond "id" OpEq (VInt chatroom_id);
                     Cond "user_id" OpEq (VInt user_id);
                     Cond "status" OpEq (VInt 1)];
    q_order_by := None; q_limit := None; q_offset := None |};
  if is_not_none info then
    max_round ← getitem info "max_round";
    app_id ← getitem info "app_id";
    status ← getitem info "status";
    smart_selection ← getitem info "smart_selection";
    Ok (VDict [("status", VInt 1); ("max_round", max_round);
               ("app_id", app_id); ("chatroom_status", status);
               ("smart_selection", smart_selection)])
  else Ok (VDict [("status", VInt 0)]).

(** The condition list of [all_chat_room_list]; the name filter is appended
    when [name] is not empty. *)
Definition list_conditions (uid : Z) (name : string) : list condition :=
  [Cond "chatrooms.status" OpEq (VInt 1);
   Cond "apps.status" OpEq (VInt 1);
   Cond "apps.mode" OpEq (VInt 5);
   Cond "chatrooms.user_id" OpEq (VInt uid)]
  ++ (if truthy (VStr name)
      then [Cond "apps.name" OpLike (VStr ("%" +:+ name +:+ "%"))]
      else []).

(** The body of the inner loop: one link of the room. *)
Definition hydrate_link (chat_item agent_item : value) : res value :=
  agent_id ← getitem agent_item "agent_id";
  positive ← gt agent_id 0;
  if positive : bool then
    entries ← getitem chat_item "agent_list";
    info ← select_one Agents {|
      q_columns := [Col "apps.name"; Col "apps.description";
                    As "agents.id" "agent_id"; Col "agents.app_id";
                    Col "apps.icon"; Col "apps.icon_background";
                    Col "agents.obligations"];
      q_aggregates := [];
      q_joins := [Join LeftJoin (Table "apps") ("apps.id", "agents.app_id")];
      q_conditions := [Cond "id" OpEq agent_id];
      q_order_by := None; q_limit := None; q_offset := None |};
    entries ← append entries info;
    setitem chat_item "agent_list" entries
  else Ok chat_item.

(** The body of the outer loop: one room of the page. *)
Definition hydrate_room (chat_item : value) : res value :=
  chat_item ← setitem chat_item "agent_list" (VList []);
  chatroom_id ← getitem chat_item "chatroom_id";
  agent_list ← select ChatroomAgentRelation {|
    q_columns := [Col "agent_id"; Col "chatroom_id"];
    q_aggregates := []; q_joins := [];
    q_conditions := [Cond "chatroom_id" OpEq chatroom_id];
    q_order_by := Some ("id", Desc);
    q_limit := None; q_offset := None |};
  if truthy (VList agent_list)
  then for_each hydrate_link chat_item agent_list
  else Ok chat_item.

(** The defaults of the arguments ([page=1], [page_size=10], [uid=0],
    [name=""]) are left to the caller.  The loop over the page updates each
    row in place; [mapM] returns the updated rows. *)
Definition all_chat_room_list (page page_size uid : Z) (name : string)
    : res value :=
  let conditions := list_conditions uid name in
  count_row ← select_one table_name {|
    q_columns := [];
    q_aggregates := [("id", Count)];
    q_joins := [Join LeftJoin (Table "apps") ("chatrooms.app_id", "apps.id")];
    q_conditions := conditions;
    q_order_by := None; q_limit := None; q_offset := None |};
  total_count ← getitem count_row "count_id";
  list ← select table_name {|
    q_columns := [Col "apps.name"; Col "apps.description";
                  As "chatrooms.id" "chatroom_id"; Col "chatrooms.chat_status";
                  Col "chatrooms.active";
                  As "chatrooms.status" "chatroom_status";
                  Col "chatrooms.smart_selection"; As "apps.id" "app_id"];
    q_aggregates := [];
    q_joins := [Join LeftJoin (Table "apps") ("chatrooms.app_id", "apps.id")];
    q_conditions := conditions;
    q_order_by := Some ("chatrooms.id", Desc);
    q_limit := Some page_size;
    q_offset := Some ((page - 1) * page_size) |};
  list ← mapM hydrate_room list;
  quotient ← truediv total_count (VInt page_size);
  Ok (VDict [("list", VList list);
             ("total_count", total_count);
             ("total_pages", math_ceil quotient);
             ("page", VInt page);
             ("page_size", VInt page_size)]).

(** The SQL text of [recent_chatroom_list], clause by clause; [uid] and
    [chatroom_id] are the two interpolated integers.  [last_run_time] in
    the ORDER BY is the column of the sub-select [last_runs].  The rows are
    taken as [execute_query] followed by [.mappings().all()] and [dict]
    gives them: a list of dictionaries. *)
Definition recent_query (uid chatroom_id : Z) : statement := {|
  st_from := "chatrooms";
  st_query := {|
    q_columns := [Col "apps.name"; Col "apps.description";
                  As "chatrooms.id" "chatroom_id"; Col "chatrooms.active";
                  As "apps.id" "app_id"];
    q_aggregates := [];
    q_joins :=
      [Join InnerJoin (Table "apps") ("chatrooms.app_id", "apps.id");
       Join InnerJoin
         (GroupMax "app_runs" "chatroom_id" "created_time" "last_run_time"
            "last_runs")
         ("chatrooms.id", "last_runs.chatroom_id")];
    q_conditions := [Cond "chatrooms.status" OpEq (VInt 1);
                     Cond "apps.status" OpEq (VInt 1);
                     Cond "apps.mode" OpEq (VInt 5);
                     Cond "chatrooms.user_id" OpEq (VInt uid);
                     Cond "chatrooms.id" OpNe (VInt chatroom_id)];
    q_order_by := Some ("last_runs.last_run_time", Desc);
    q_limit := Some 5;
    q_offset := None |} |}.

(** The body of the loop of [recent_chatroom_list]. *)
Definition attach_agents (chatroom : value) : res value :=
  chatroom_id ← get chatroom "chatroom_id";
  if truthy chatroom_id then
    agent_list ← show_chatroom_agent chatroom_id;
    setitem chatroom "agent_list" agent_list
  else Ok chatroom.

(** The [try] block of [recent_chatroom_list]. *)
Definition recent_chatroom_list_try (chatroom_id uid : Z) : res value :=
  rows ← execute_query (recent_query uid chatroom_id);
  chatrooms ← mapM attach_agents rows;
  Ok (VDict [("list", VList chatrooms)]).

(** [except Exception]: the handler prints the error and returns an empty
    list. *)
Definition recent_chatroom_list (chatroom_id uid : Z) : res value :=
  try_except (recent_chatroom_list_try chatroom_id uid)
    (λ e, Ok (VDict [("list", VList [])])).

End Methods.

End Chatrooms.
Export Chatrooms.

(* ===================================================================== *)
(** ** The queries read over the typed tables *)
(* ===================================================================== *)

(** What each query of the class returns over [spec_store], written directly
    over the rows of the tables.  The lemmas of [RelFacts] prove that the
    generic evaluation of the query descriptions computes exactly these. *)
Module Rel.

(** The name filter of [all_chat_room_list]. *)
Definition name_matches (name : string) (a : app_row) : bool :=
  if truthy (VStr name) then like ("%" +:+ name +:+ "%") (ap_name a) else true.

(** A room with its application, when the four base conditions and the name
    filter hold. *)
Definition visibleb (uid : Z) (name : string) (c : chatroom_row) (a : app_row)
    : bool :=
  (cr_app_id c =? ap_id a) && (cr_status c =? 1) && (ap_status a =? 1)
  && (ap_mode a =? 5) && (cr_user_id c =? uid) && name_matches name a.

Definition visible_rooms (db : database) (uid : Z) (name : string)
    : list (chatroom_row * app_row) :=
  c ← chatrooms db;
  (λ a, (c, a)) <$> List.filter (visibleb uid name c) (apps db).

Definition room_before (p1 p2 : chatroom_row * app_row) : bool :=
  cr_id p2.1 <=? cr_id p1.1.

Definition page_rooms (db : database) (page page_size uid : Z) (name : string)
    : list (chatroom_row * app_row) :=
  window (Some page_size) (Some ((page - 1) * page_size))
    (sort_by room_before (visible_rooms db uid name)).

Definition room_view (p : chatroom_row * app_row) : dict :=
  [ ("name", VStr (ap_name p.2));
    ("description", VStr (ap_description p.2));
    ("chatroom_id", VInt (cr_id p.1));
    ("chat_status", VInt (cr_chat_status p.1));
    ("active", VInt (cr_active p.1));
    ("chatroom_status", VInt (cr_status p.1));
    ("smart_selection", VInt (cr_smart_selection p.1));
    ("app_id", VInt (ap_id p.2)) ].

(** The links of a room, most recent link first. *)
Definition link_before (l1 l2 : relation_row) : bool := rl_id l2 <=? rl_id l1.

Definition room_links (db : database) (rid : Z) : list relation_row :=
  sort_by link_before
    (List.filter (λ l, rl_chatroom_id l =? rid) (chatroom_agent_relation db)).

Definition link_view (l : relation_row) : dict :=
  [ ("agent_id", VInt (rl_agent_id l)); ("chatroom_id", VInt (rl_chatroom_id l)) ].

(** An agent with its application, if that exists. *)
Definition agent_pairs (db : database) : list (agent_row * option app_row) :=
  a ← agents db;
  match List.filter (λ p, ap_id p =? ag_app_id a) (apps db) with
  | [] => [(a, None)]
  | m => (λ p, (a, Some p)) <$> m
  end.

Definition app_str (f : app_row → string) (o : option app_row) : value :=
  from_option (λ p, VStr (f p)) VNone o.

Definition agent_view (p : agent_row * option app_row) : dict :=
  [ ("name", app_str ap_name p.2);
    ("description", app_str ap_description p.2);
    ("agent_id", VInt (ag_id p.1));
    ("app_id", VInt (ag_app_id p.1));
    ("icon", app_str ap_icon p.2);
    ("icon_background", app_str ap_icon_background p.2);
    ("obligations", VStr (ag_obligations p.1)) ].

(** The joined view of the agent with the given id, [None] when there is no
    such agent. *)
Definition agent_info (db : database) (aid : Z) : value :=
  match List.filter (λ p, ag_id p.1 =? aid) (agent_pairs db) with
  | p :: _ => VDict (agent_view p)
  | [] => VNone
  end.

(** The links of a room that carry an agent. *)
Definition agent_links (db : database) (rid : Z) : list relation_row :=
  List.filter (λ l, 0 <? rl_agent_id l) (room_links db rid).

Definition agent_entries (db : database) (rid : Z) : list value :=
  (λ l, agent_info db (rl_agent_id l)) <$> agent_links db rid.

Definition room_item (db : database) (p : chatroom_row * app_row) : value :=
  VDict (room_view p ++ [("agent_list", VList (agent_entries db (cr_id p.1)))]).

(** The last activity of a room: the latest [created_time] of its runs. *)
Definition max_list (l : list Z) : option Z :=
  foldr (λ z acc, Some (match acc with Some m => Z.max z m | None => z end)) None l.

Definition run_times (db : database) (rid : Z) : list Z :=
  rn_created_time <$> List.filter (λ r, rn_chatroom_id r =? rid) (app_runs db).

Definition last_activity (db : database) (rid : Z) : option Z :=
  max_list (run_times db rid).

(** The rooms that have runs, each once. *)
Fixpoint distinct_ids (l : list Z) : list Z :=
  match l with
  | [] => []
  | x :: l' => x :: List.filter (λ y, negb (x =? y)) (distinct_ids l')
  end.

Definition last_runs (db : database) : list (Z * option Z) :=
  (λ k, (k, last_activity db k)) <$> distinct_ids (rn_chatroom_id <$> app_runs db).

Definition recentb (uid exclude : Z) (c : chatroom_row) (a : app_row) : bool :=
  (cr_status c =? 1) && (ap_status a =? 1) && (ap_mode a =? 5)
  && (cr_user_id c =? uid) && negb (cr_id c =? exclude).

(** Rooms joined with their application and their last run. *)
Definition recent_triples (db : database)
    : list (chatroom_row * app_row * (Z * option Z)) :=
  ca ← (c ← chatrooms db;
        (λ a, (c, a)) <$> List.filter (λ a, cr_app_id c =? ap_id a) (apps db));
  (λ g, (ca, g)) <$> List.filter (λ g, cr_id ca.1 =? g.1) (last_runs db).

Definition time_value (o : option Z) : value := from_option VInt VNone o.

Definition recent_before (t1 t2 : chatroom_row * app_row * (Z * option Z)) : bool :=
  sql_leb (time_value t2.2.2) (time_value t1.2.2).

Definition recent_rooms (db : database) (exclude uid : Z)
    : list (chatroom_row * app_row * (Z * option Z)) :=
  take 5 (sort_by recent_before
            (List.filter (λ t, recentb uid exclude t.1.1 t.1.2) (recent_triples db))).

Definition recent_view (t : chatroom_row * app_row * (Z * option Z)) : dict :=
  [ ("name", VStr (ap_name t.1.2));
    ("description", VStr (ap_description t.1.2));
    ("chatroom_id", VInt (cr_id t.1.1));
    ("active", VInt (cr_active t.1.1));
    ("app_id", VInt (ap_id t.1.2)) ].

(** The room lookup of [search_chatrooms_id]. *)
Definition ownedb (rid uid : Z) (c : chatroom_row) : bool :=
  (cr_id c =? rid) && (cr_user_id c =? uid) && (cr_status c =? 1).

Definition state_view (c : chatroom_row) : dict :=
  [ ("id", VInt (cr_id c));
    ("max_round", VInt (cr_max_round c));
    ("app_id", VInt (cr_app_id c));
    ("status", VInt (cr_status c));
    ("smart_selection", VInt (cr_smart_selection c)) ].

(** The rows of the sub-select [last_runs] and of the three-way join. *)
Definition group_dict (g : Z * option Z) : dict :=
  [ ("last_runs.chatroom_id", VInt g.1);
    ("last_runs.last_run_time", time_value g.2) ].

Definition triple_dict (t : chatroom_row * app_row * (Z * option Z)) : dict :=
  (chatroom_dict t.1.1 ++ app_dict t.1.2) ++ group_dict t.2.

(** What [search_chatrooms_id] returns for a room it finds. *)
Definition room_state (c : chatroom_row) : value :=
  VDict [("status", VInt 1); ("max_round", VInt (cr_max_round c));
         ("app_id", VInt (cr_app_id c)); ("chatroom_status", VInt (cr_status c));
         ("smart_selection", VInt (cr_smart_selection c))].

Definition not_found : value := VDict [("status", VInt 0)].

(** What [recent_chatroom_list] returns when anything fails. *)
Definition empty_list : value := VDict [("list", VList [])].

(** The query descriptions of the methods, named. *)
Definition links_query (chatroom_id : value) : query := {|
  q_columns := [Col "agent_id"; Col "chatroom_id"];
  q_aggregates := []; q_joins := [];
  q_conditions := [Cond "chatroom_id" OpEq chatroom_id];
  q_order_by := Some ("id", Desc);
  q_limit := None; q_offset := None |}.

Definition agent_query (agent_id : value) : query := {|
  q_columns := [Col "apps.name"; Col "apps.description";
                As "agents.id" "agent_id"; Col "agents.app_id";
                Col "apps.icon"; Col "apps.icon_background";
                Col "agents.obligations"];
  q_aggregates := [];
  q_joins := [Join LeftJoin (Table "apps") ("apps.id", "agents.app_id")];
  q_conditions := [Cond "id" OpEq agent_id];
  q_order_by := None; q_limit := None; q_offset := None |}.

Definition agent_dict_pair (p : agent_row * option app_row) : dict :=
  agent_dict p.1 ++ from_option app_dict [] p.2.

Definition room_joins : list join :=
  [Join LeftJoin (Table "apps") ("chatrooms.app_id", "apps.id")].

Definition page_columns : list column :=
  [Col "apps.name"; Col "apps.description"; As "chatrooms.id" "chatroom_id";
   Col "chatrooms.chat_status"; Col "chatrooms.active";
   As "chatrooms.status" "chatroom_status"; Col "chatrooms.smart_selection";
   As "apps.id" "app_id"].

Definition room_dict (p : chatroom_row * app_row) : dict :=
  chatroom_dict p.1 ++ app_dict p.2.

(** The conditions of the WHERE clause, without the ON of the join. *)
Definition whereb (uid : Z) (name : string) (c : chatroom_row) (a : app_row)
    : bool :=
  (cr_status c =? 1) && (ap_status a =? 1) && (ap_mode a =? 5)
  && (cr_user_id c =? uid) && name_matches name a.

Definition count_query (conditions : list condition) : query := {|
  q_columns := [];
  q_aggregates := [("id", Count)];
  q_joins := room_joins;
  q_conditions := conditions;
  q_order_by := None; q_limit := None; q_offset := None |}.

Definition page_query (conditions : list condition) (page page_size : Z)
    : query := {|
  q_columns := page_columns;
  q_aggregates := [];
  q_joins := room_joins;
  q_conditions := conditions;
  q_order_by := Some ("chatrooms.id", Desc);
  q_limit := Some page_size;
  q_offset := Some ((page - 1) * page_size) |}.

Definition search_query (chatroom_id user_id : Z) : query := {|
  q_columns := [Col "id"; Col "max_round"; Col "app_id"; Col "status";
                Col "smart_selection"];
  q_aggregates := []; q_joins := [];
  q_conditions := [Cond "id" OpEq (VInt chatroom_id);
                   Cond "user_id" OpEq (VInt user_id);
                   Cond "status" OpEq (VInt 1)];
  q_order_by := None; q_limit := None; q_offset := None |}.

End Rel.
Export Rel.

(** Reading a result. *)
Definition field (v : value) (k : string) : value :=
  match v with
  | VDict d => default VNone (dict_lookup k d)
  | _ => VNone
  end.


Definition items (v : value) : list value :=
  match field v "list" with
  | VList l => l
  | _ => []
  end.

(* ===================================================================== *)
(** ** The claims as stated, and a database to try them on *)
(* ===================================================================== *)

(** C8, as stated: a page size below 1 is rejected with a validation error
    or replaced by a valid one, and so is a page below 1. *)
Definition validates_pagination (lister : Z → Z → Z → string → res value) : Prop :=
  ∀ page page_size uid name,
    (page_size < 1 →
       lister page page_size uid name = Raise ValueError
       ∨ ∃ size, 1 ≤ size
                 ∧ lister page page_size uid name = lister page size uid name)
    ∧ (page < 1 →
         lister page page_size uid name = Raise ValueError
         ∨ lister page page_size uid name = lister 1 page_size uid name).


(** *** A small database *)

Module Examples.

Definition room (id uid app status : Z) : chatroom_row := {|
  cr_id := id; cr_user_id := uid; cr_app_id := app; cr_max_round := 7;
  cr_status := status; cr_chat_status := 0; cr_active := 1;
  cr_smart_selection := 1 |}.

Definition app (id status mode : Z) (name : string) : app_row := {|
  ap_id := id; ap_name := name; ap_description := "about " +:+ name;
  ap_icon := "icon"; ap_icon_background := "white";
  ap_status := status; ap_mode := mode |}.

(** User 3 owns rooms 10, 11, 13, 14 and 15; of these only 10 and 14 are
    active rooms of an active application of mode 5.  Room 10 has a link
    without agent and a link to agent 7; room 14 has a link to agent 5, a link
    to an agent that does not exist, and a link with a negative agent id. *)
Definition demo : database := {|
  chatrooms := [room 10 3 100 1; room 11 3 101 1; room 12 4 100 1;
                room 13 3 100 0; room 14 3 100 1; room 15 3 999 1];
  apps := [app 100 1 5 "alpha"; app 101 1 2 "beta"];
  agents := [ {| ag_id := 5; ag_app_id := 100; ag_obligations := "reviewer" |};
              {| ag_id := 7; ag_app_id := 100; ag_obligations := "writer" |} ];
  chatroom_agent_relation :=
    [ {| rl_id := 1; rl_chatroom_id := 10; rl_agent_id := 0 |};
      {| rl_id := 2; rl_chatroom_id := 10; rl_agent_id := 7 |};
      {| rl_id := 3; rl_chatroom_id := 14; rl_agent_id := 5 |};
      {| rl_id := 4; rl_chatroom_id := 14; rl_agent_id := 8 |};
      {| rl_id := 5; rl_chatroom_id := 14; rl_agent_id := -2 |} ];
  app_runs :=
    [ {| rn_id := 1; rn_chatroom_id := 10; rn_created_time := 50 |};
      {| rn_id := 2; rn_chatroom_id := 14; rn_created_time := 70 |};
      {| rn_id := 3; rn_chatroom_id := 10; rn_created_time := 90 |};
      {| rn_id := 4; rn_chatroom_id := 12; rn_created_time := 95 |} ]
|}.


(** A stand-in for the agent list helper of the relation model. *)
Definition demo_agents (chatroom_id : value) : res value :=
  Ok (VList [chatroom_id]).

(** A query layer whose raw query fails. *)
Definition broken_query : QueryLayer := {|
  select_one := λ _ _, Ok VNone;
  select := λ _ _, Ok [];
  execute_query := λ _, Raise (DatabaseError "connection lost");
  show_chatroom_agent := λ _, Ok (VList [])
|}.

(** A query layer whose agent list helper fails. *)
Definition broken_agents : QueryLayer :=
  spec_store demo (λ _, Raise (DatabaseError "connection lost")) Refuses.

(** The first page of the rooms of user 3, ten rooms a page. *)
Definition demo_page : value :=
  Eval vm_compute in
    match all_chat_room_list (store := spec_store demo demo_agents Refuses) 1 10 3 "" with
    | Ok v => v
    | Raise _ => VNone
    end.

End Examples.
Import Examples.

(* ===================================================================== *)
(** ** Further readings of the results *)
(* ===================================================================== *)

(** The query of [search_agent_id], named. *)
Definition agent_id_query (agent_id : Z) : query := {|
  q_columns := [Col "id"];
  q_aggregates := []; q_joins := [];
  q_conditions := [Cond "id" OpEq (VInt agent_id)];
  q_order_by := None; q_limit := None; q_offset := None |}.

(** What [search_agent_id] answers for an agent it finds. *)
Definition found : value := VDict [("status", VInt 1)].

(** The rooms on one page of [all_chat_room_list]; none when the call
    raises. *)
Definition page_items {store : QueryLayer} (page_size uid : Z) (name : string)
    (page : nat) : list value :=
  match all_chat_room_list (Z.of_nat page) page_size uid name with
  | Ok v => items v
  | Raise _ => []
  end.

(** The count query and the page query of [all_chat_room_list], as the method
    sends them to the query layer. *)
Definition sent_count_query (uid : Z) (name : string) : query :=
  count_query (list_conditions uid name).

Definition sent_page_query (page page_size uid : Z) (name : string) : query :=
  page_query (list_conditions uid name) page page_size.

(** The small database with one more agent, whose application does not
    exist, linked to room 10. *)
Definition demo_orphan : database := {|
  chatrooms := chatrooms demo;
  apps := apps demo;
  agents := {| ag_id := 9; ag_app_id := 555; ag_obligations := "guest" |}
            :: agents demo;
  chatroom_agent_relation :=
    {| rl_id := 6; rl_chatroom_id := 10; rl_agent_id := 9 |}
    :: chatroom_agent_relation demo;
  app_runs := app_runs demo
|}.

(** A query layer whose link query fails. *)
Definition broken_links : QueryLayer := {|
  select_one := spec_select_one demo;
  select := λ main q,
    if String.eqb main ChatroomAgentRelation
    then Raise (DatabaseError "connection lost")
    else spec_select demo Refuses main q;
  execute_query := spec_execute_query demo Refuses;
  show_chatroom_agent := demo_agents
|}.

(* ===================================================================== *)
(** ** Facts about the evaluation of queries *)
(* ===================================================================== *)

Module SqlFacts.

Section Lists.
Context {A B : Type}.
Implicit Types (f : A → B) (l : list A).

Lemma filter_fmap (p : B → bool) f l :
  List.filter p (f <$> l) = f <$> List.filter (λ x, p (f x)) l.
Proof.
  induction l as [|x l IH]; csimpl; [done|].
  destruct (p (f x)); csimpl; by rewrite IH.
Qed.

Lemma filter_ext_in (p q : A → bool) l :
  (∀ x, x ∈ l → p x = q x) → List.filter p l = List.filter q l.
Proof.
  induction l as [|x l IH]; simpl; intros Hpq; [done|].
  rewrite (Hpq x) by left. rewrite IH; [done|].
  intros y Hy. apply Hpq. by right.
Qed.

Lemma elem_of_filter (p : A → bool) l x :
  x ∈ List.filter p l ↔ x ∈ l ∧ p x = true.
Proof. rewrite !list_elem_of_In. apply filter_In. Qed.

Lemma filter_sublist (p : A → bool) l : List.filter p l `sublist_of` l.
Proof.
  induction l as [|x l IH]; simpl; [constructor|].
  destruct (p x); by constructor.
Qed.

Lemma insert_by_fmap (bef : B → B → bool) (bef' : A → A → bool) f x l :
  (∀ x y, bef (f x) (f y) = bef' x y) →
  insert_by bef (f x) (f <$> l) = f <$> insert_by bef' x l.
Proof.
  intros Hbef. induction l as [|y l IH]; csimpl; [done|].
  rewrite Hbef. destruct (bef' x y); csimpl; [done|]. by rewrite IH.
Qed.

Lemma sort_by_fmap (bef : B → B → bool) (bef' : A → A → bool) f l :
  (∀ x y, bef (f x) (f y) = bef' x y) →
  sort_by bef (f <$> l) = f <$> sort_by bef' l.
Proof.
  intros Hbef. induction l as [|x l IH]; csimpl; [done|].
  unfold sort_by in *; csimpl. rewrite IH. by apply insert_by_fmap.
Qed.

Lemma window_fmap f (limit offset : option Z) l :
  window limit offset (f <$> l) = f <$> window limit offset l.
Proof.
  unfold window. destruct offset, limit; by rewrite ?fmap_take, ?fmap_drop.
Qed.

Lemma window_sublist (limit offset : option Z) l :
  window limit offset l `sublist_of` l.
Proof.
  unfold window. destruct offset, limit; try done.
  - etrans; [apply sublist_take|apply sublist_drop].
  - apply sublist_drop.
  - apply sublist_take.
Qed.

Lemma sublist_Forall (P : A → Prop) l k :
  l `sublist_of` k → Forall P k → Forall P l.
Proof.
  induction 1; intros HP; [done| |].
  - apply Forall_cons in HP as [??]. constructor; auto.
  - apply Forall_cons in HP as [??]. auto.
Qed.
End Lists.

Section Sorting.
Context {A : Type} (bef : A → A → bool).

Lemma insert_by_perm x (l : list A) : insert_by bef x l ≡ₚ x :: l.
Proof.
  induction l as [|y l IH]; simpl; [done|].
  destruct (bef x y); [done|]. rewrite IH. apply Permutation_swap.
Qed.

Lemma sort_by_perm (l : list A) : sort_by bef l ≡ₚ l.
Proof.
  induction l as [|x l IH]; [done|].
  unfold sort_by in *; simpl. rewrite insert_by_perm. by constructor.
Qed.

Lemma elem_of_sort_by x (l : list A) : x ∈ sort_by bef l ↔ x ∈ l.
Proof. by rewrite sort_by_perm. Qed.

(** Where [bef] compares an integer key downwards, the sorted list has its
    keys in descending order. *)
Context (key : A → Z) (P : A → Prop).
Hypothesis bef_key : ∀ x y, P x → P y → bef x y = (key y <=? key x).

Lemma insert_by_sorted x (l : list A) :
  P x → Forall P l →
  StronglySorted (λ a b, key b ≤ key a) l →
  StronglySorted (λ a b, key b ≤ key a) (insert_by bef x l).
Proof.
  intros Hx Hl Hs. induction Hs as [|y l Hs IH Hy]; simpl.
  - repeat constructor.
  - apply Forall_cons in Hl as [HPy Hl].
    rewrite bef_key by done. destruct (Z.leb_spec (key y) (key x)).
    + constructor; [by constructor|]. constructor; [done|].
      eapply Forall_impl; [exact Hy|]. simpl. intros; lia.
    + constructor; [by apply IH|].
      rewrite insert_by_perm. constructor; [lia|done].
Qed.

Lemma sort_by_sorted (l : list A) :
  Forall P l → StronglySorted (λ a b, key b ≤ key a) (sort_by bef l).
Proof.
  induction 1 as [|x l Hx Hl IH]; [constructor|].
  unfold sort_by in *; simpl. apply insert_by_sorted; [done| |done].
  fold (sort_by bef l). by rewrite sort_by_perm.
Qed.
End Sorting.

Lemma StronglySorted_sublist {A} (R : relation A) (l k : list A) :
  l `sublist_of` k → StronglySorted R k → StronglySorted R l.
Proof.
  induction 1 as [|x l k Hsub IH|x l k Hsub IH]; intros Hs.
  - constructor.
  - apply StronglySorted_inv in Hs as [Hs Hx]. constructor; [by apply IH|].
    eapply sublist_Forall; eauto.
  - apply StronglySorted_inv in Hs as [Hs _]. by apply IH.
Qed.

(** A descending list without repetition is strictly descending. *)
Lemma StronglySorted_strict (l : list Z) :
  StronglySorted (λ a b, b ≤ a) l → NoDup l → StronglySorted (λ a b, b < a) l.
Proof.
  induction 1 as [|x l Hs IH Hx]; intros Hnd; [constructor|].
  apply NoDup_cons in Hnd as [Hx' Hnd]. constructor; [by apply IH|].
  rewrite Forall_forall in Hx |- *. intros y Hy.
  assert (x ≠ y) by (intros ->; done). specialize (Hx y Hy). lia.
Qed.

(** Joining the image of a list with the image of another. *)
Lemma join_row_fmap {B} (k : join_kind) (g : B → dict) (m : list B)
    (on : string * string) (r : dict) :
  join_row (Joined k (g <$> m) on) r =
    match k, List.filter
               (λ y, sql_eq (sql_lookup on.1 (r ++ g y)) (sql_lookup on.2 (r ++ g y))) m
    with
    | LeftJoin, [] => [r]
    | _, m' => (λ y, r ++ g y) <$> m'
    end.
Proof.
  unfold join_row; cbn [jd_kind jd_rows jd_on]. rewrite filter_fmap.
  destruct (List.filter _ m) as [|y m'], k; try done.
  all: by rewrite <-list_fmap_compose.
Qed.

End SqlFacts.

(* ===================================================================== *)
(** ** The queries of the class over [spec_store] *)
(* ===================================================================== *)

Module RelFacts.
Import SqlFacts.

(** Evaluates lookups, name resolution and comparisons on rows whose keys are
    literal; integer comparisons and [like] are left as they are. *)
Ltac sql_compute := cbv -[Z.eqb Z.leb Z.ltb andb negb like].

Section Binds.
Context {A B C : Type}.

Lemma filter_bind (p : B → bool) (h : A → list B) (l : list A) :
  List.filter p (l ≫= h) = l ≫= (λ x, List.filter p (h x)).
Proof.
  induction l as [|x l IH]; csimpl; [done|]. by rewrite List.filter_app, IH.
Qed.

Lemma fmap_bind (f : B → C) (h : A → list B) (l : list A) :
  f <$> (l ≫= h) = l ≫= (λ x, f <$> h x).
Proof.
  induction l as [|x l IH]; csimpl; [done|]. by rewrite fmap_app, IH.
Qed.

Lemma filter_andb (p q : A → bool) (l : list A) :
  List.filter (λ x, p x && q x) l = List.filter q (List.filter p l).
Proof.
  induction l as [|x l IH]; simpl; [done|].
  destruct (p x); simpl; [|done]. destruct (q x); by rewrite IH.
Qed.
End Binds.

Section Joins.
Context {A B : Type} (f : A → dict) (g : B → dict).
Context (on : string * string) (h : A → B → bool).
Hypothesis on_h : ∀ x y,
  sql_eq (sql_lookup on.1 (f x ++ g y)) (sql_lookup on.2 (f x ++ g y)) = h x y.

Lemma inner_join_lift (l : list A) (m : list B) :
  (f <$> l) ≫= join_row (Joined InnerJoin (g <$> m) on) =
  (λ p, f p.1 ++ g p.2) <$> (x ← l; (λ y, (x, y)) <$> List.filter (h x) m).
Proof.
  rewrite list_fmap_bind, fmap_bind. apply list_bind_ext; [|done].
  intros x; simpl. rewrite join_row_fmap, <-list_fmap_compose.
  f_equal. apply filter_ext_in. intros y _. apply on_h.
Qed.

Lemma left_join_lift (l : list A) (m : list B) :
  (f <$> l) ≫= join_row (Joined LeftJoin (g <$> m) on) =
  (λ p, f p.1 ++ from_option g [] p.2) <$>
    (x ← l; match List.filter (h x) m with
            | [] => [(x, None)]
            | m' => (λ y, (x, Some y)) <$> m'
            end).
Proof.
  rewrite list_fmap_bind, fmap_bind. apply list_bind_ext; [|done].
  intros x; simpl. rewrite join_row_fmap.
  rewrite (filter_ext_in _ (h x)) by (intros y _; apply on_h).
  destruct (List.filter (h x) m) as [|y m']; simpl.
  - by rewrite app_nil_r.
  - by rewrite <-list_fmap_compose.
Qed.
End Joins.

(** The pieces of [run_select] over the image of a typed list. *)
Section Select.
Context {A : Type} (f : A → dict) (main : string).

Lemma matching_table (cs : list condition) (p : A → bool) (l : list A) :
  (∀ x, eval_conditions main cs (f x) = p x) →
  matching main (f <$> l) [] cs = f <$> List.filter p l.
Proof.
  intros Hp. unfold matching, join_all; simpl. rewrite filter_fmap.
  f_equal. apply filter_ext_in. intros x _. apply Hp.
Qed.

Lemma run_select_lift rows js cs o limit offset cols
    (view : A → dict) (L L' : list A) :
  matching main rows js cs = f <$> L →
  order_rows main o (f <$> L) = f <$> L' →
  (∀ x, project main cols (f x) = view x) →
  run_select main rows js cs o limit offset cols =
    view <$> window limit offset L'.
Proof.
  intros Hm Ho Hv. unfold run_select. rewrite Hm, Ho, window_fmap.
  rewrite <-list_fmap_compose. apply list_fmap_ext. intros ? x _. apply Hv.
Qed.

Lemma order_rows_lift (o : string * direction) (bef : A → A → bool) (L : list A) :
  (∀ x y, before main o (f x) (f y) = bef x y) →
  order_rows main (Some o) (f <$> L) = f <$> sort_by bef L.
Proof. intros Hb. simpl. by apply sort_by_fmap. Qed.
End Select.

Section Queries.
Variable db : database.
Variable show_agents : value → res value.
Variable negative : negative_policy.

(** *** The links of a room *)


Lemma select_links (rid : Z) :
  spec_select db negative ChatroomAgentRelation (links_query (VInt rid)) =
    Ok (VDict <$> (link_view <$> room_links db rid)).
Proof.
  unfold spec_select, rows_of; simpl. do 2 f_equal.
  change (table_rows db ChatroomAgentRelation)
    with (relation_dict <$> chatroom_agent_relation db).
  erewrite (run_select_lift relation_dict) with (view := link_view)
    (L' := room_links db rid).
  - done.
  - apply matching_table with (p := λ l, rl_chatroom_id l =? rid).
    intros [???]. sql_compute. by rewrite andb_true_r.
  - apply order_rows_lift with (bef := link_before).
    by intros [???] [???].
  - by intros [???].
Qed.

(** *** The joined view of an agent *)



Lemma select_one_agent (aid : Z) :
  spec_select_one db Agents (agent_query (VInt aid)) = Ok (agent_info db aid).
Proof.
  unfold spec_select_one, rows_of, agent_info; simpl.
  change (table_rows db Agents) with (agent_dict <$> agents db).
  erewrite (run_select_lift agent_dict_pair) with (view := agent_view)
    (L := List.filter (λ p, ag_id p.1 =? aid) (agent_pairs db))
    (L' := List.filter (λ p, ag_id p.1 =? aid) (agent_pairs db)).
  - unfold window. by destruct (List.filter _ (agent_pairs db)).
  - unfold matching, join_all; simpl.
    change (resolve db _) with
      (Joined LeftJoin (app_dict <$> apps db) ("apps.id", "agents.app_id")).
    rewrite (left_join_lift agent_dict app_dict _
               (λ a p, ap_id p =? ag_app_id a)) by (by intros [???] [???????]).
    fold (agent_pairs db). rewrite filter_fmap. f_equal.
    apply filter_ext_in. intros [[???] [[???????]|]] _; sql_compute;
      by rewrite andb_true_r.
  - done.
  - by intros [[???] [[???????]|]].
Qed.

(** *** The page of rooms and their count *)





Lemma visibleb_whereb uid name c a :
  visibleb uid name c a = (cr_app_id c =? ap_id a) && whereb uid name c a.
Proof. unfold visibleb, whereb. by rewrite !andb_assoc. Qed.

Lemma conditions_room uid name c a :
  eval_conditions table_name (list_conditions uid name)
    (chatroom_dict c ++ app_dict a) = whereb uid name c a.
Proof.
  unfold list_conditions, whereb, name_matches.
  generalize ("%" +:+ name +:+ "%"); intros pat.
  destruct c, a, (truthy (VStr name)); sql_compute;
    by rewrite ?andb_true_r, ?andb_assoc.
Qed.

Lemma conditions_room_alone uid name c :
  eval_conditions table_name (list_conditions uid name) (chatroom_dict c ++ [])
    = false.
Proof.
  unfold list_conditions.
  generalize ("%" +:+ name +:+ "%"); intros pat.
  destruct c, (truthy (VStr name)); sql_compute; apply andb_false_r.
Qed.

Lemma matching_rooms uid name :
  matching table_name (table_rows db table_name) (resolve db <$> room_joins)
    (list_conditions uid name) = room_dict <$> visible_rooms db uid name.
Proof.
  unfold matching, join_all; simpl.
  change (table_rows db table_name) with (chatroom_dict <$> chatrooms db).
  change (resolve db _) with
    (Joined LeftJoin (app_dict <$> apps db) ("chatrooms.app_id", "apps.id")).
  rewrite (left_join_lift chatroom_dict app_dict _
             (λ c a, cr_app_id c =? ap_id a)) by (by intros [????????] [???????]).
  rewrite filter_fmap, filter_bind. unfold visible_rooms.
  rewrite !fmap_bind. apply list_bind_ext; [|done]. intros c.
  rewrite (filter_ext_in (visibleb uid name c)
             (λ a, (cr_app_id c =? ap_id a) && whereb uid name c a))
    by (intros; apply visibleb_whereb).
  rewrite filter_andb.
  destruct (List.filter (λ a, cr_app_id c =? ap_id a) (apps db)) as [|y m].
  - cbn [List.filter fst snd from_option]. by rewrite conditions_room_alone.
  - rewrite filter_fmap, <-!list_fmap_compose.
    rewrite (filter_ext_in _ (whereb uid name c)); [done|].
    intros a _. apply conditions_room.
Qed.

Lemma filter_all {A} (p : A → bool) (l : list A) :
  (∀ x, p x = true) → List.filter p l = l.
Proof.
  intros Hp. induction l as [|x l IH]; simpl; [done|]. by rewrite Hp, IH.
Qed.


Lemma select_one_count uid name :
  spec_select_one db table_name (count_query (list_conditions uid name)) =
    Ok (VDict [("count_id",
                VInt (Z.of_nat (length (visible_rooms db uid name))))]).
Proof.
  unfold spec_select_one; cbn [q_aggregates q_joins q_conditions count_query].
  rewrite matching_rooms. unfold aggregate_row; csimpl.
  rewrite filter_fmap, filter_all, length_fmap; [done|].
  by intros [[????????] [???????]].
Qed.


Lemma rows_of_page uid name page page_size :
  rows_of db table_name (page_query (list_conditions uid name) page page_size)
    = room_view <$> page_rooms db page page_size uid name.
Proof.
  unfold rows_of, page_rooms;
    cbn [q_columns q_joins q_conditions q_order_by q_limit q_offset page_query].
  eapply (run_select_lift room_dict).
  - apply matching_rooms.
  - apply order_rows_lift with (bef := room_before).
    by intros [[????????] [???????]] [[????????] [???????]].
  - by intros [[????????] [???????]].
Qed.

(** *** The room lookup *)


Lemma select_one_room (rid uid : Z) :
spec_select_one db table_name (search_query rid uid) =
  Ok (match List.filter (ownedb rid uid) (chatrooms db) with
      | c :: _ => VDict (state_view c)
      | [] => VNone
      end).
Proof.
unfold spec_select_one, rows_of; simpl.
change (table_rows db table_name) with (chatroom_dict <$> chatrooms db).
erewrite (run_select_lift chatroom_dict) with (view := state_view)
  (L := List.filter (ownedb rid uid) (chatrooms db))
  (L' := List.filter (ownedb rid uid) (chatrooms db)).
- unfold window. by destruct (List.filter _ (chatrooms db)).
- apply matching_table. intros [????????]. sql_compute.
  by rewrite andb_true_r, andb_assoc.
- done.
- by intros [????????].
Qed.

(** *** The recent rooms *)

Lemma distinct_ints (l : list Z) : distinct (VInt <$> l) = VInt <$> distinct_ids l.
Proof.
induction l as [|x l IH]; csimpl; [done|].
rewrite IH, filter_fmap. done.
Qed.

Lemma sql_max_ints (l : list Z) : sql_max (VInt <$> l) = time_value (max_list l).
Proof.
induction l as [|x l IH]; [done|].
change (sql_max (VInt <$> x :: l))
  with (if sql_leb (sql_max (VInt <$> l)) (VInt x)
        then VInt x else sql_max (VInt <$> l)).
rewrite IH. cbn [max_list foldr]. fold (max_list l).
destruct (max_list l) as [m|]; simpl; [|done].
destruct (Z.leb_spec m x); f_equal; lia.
Qed.

Lemma group_max_runs :
group_max (table_rows db "app_runs") "app_runs" "chatroom_id" "created_time"
  "last_run_time" "last_runs" = group_dict <$> last_runs db.
Proof.
change (table_rows db "app_runs") with (app_run_dict <$> app_runs db).
unfold group_max, last_runs.
rewrite <-(list_fmap_compose app_run_dict).
rewrite (list_fmap_ext _ (VInt ∘ rn_chatroom_id) (app_runs db))
  by (by intros ? [???] ?).
rewrite list_fmap_compose, distinct_ints, <-!list_fmap_compose.
apply list_fmap_ext. intros _ k _; simpl.
unfold group_dict, last_activity, run_times; simpl. do 3 f_equal.
rewrite filter_fmap, <-list_fmap_compose.
rewrite (list_fmap_ext _ (VInt ∘ rn_created_time)) by (by intros ? [???] ?).
rewrite list_fmap_compose, sql_max_ints. do 3 f_equal.
apply filter_ext_in. intros [???] _. sql_compute. apply Z.eqb_sym.
Qed.

Lemma rows_of_recent (uid exclude : Z) :
rows_of db (st_from (recent_query uid exclude))
  (st_query (recent_query uid exclude)) =
recent_view <$> recent_rooms db exclude uid.
Proof.
unfold rows_of, recent_rooms;
  cbn [st_from st_query recent_query q_columns q_joins q_conditions
       q_order_by q_limit q_offset].
change (take 5 ?l) with (window (Some 5) None l).
eapply (run_select_lift triple_dict) with
  (L := List.filter (λ t, recentb uid exclude t.1.1 t.1.2) (recent_triples db)).
- unfold matching, join_all. cbn [fmap list_fmap foldl].
  change (table_rows db "chatrooms") with (chatroom_dict <$> chatrooms db).
  change (resolve db (Join InnerJoin (Table "apps") ?on))
    with (Joined InnerJoin (app_dict <$> apps db) on).
  change (resolve db (Join InnerJoin (GroupMax ?t ?g ?a ?m ?n) ?on))
    with (Joined InnerJoin (group_max (table_rows db t) t g a m n) on).
  rewrite group_max_runs.
  rewrite (inner_join_lift chatroom_dict app_dict _
             (λ c a, cr_app_id c =? ap_id a)) by (by intros [????????] [???????]).
  rewrite (inner_join_lift (λ p, chatroom_dict p.1 ++ app_dict p.2) group_dict _
             (λ p g, cr_id p.1 =? g.1))
    by (by intros [[????????] [???????]] [??]).
  fold (recent_triples db). rewrite filter_fmap.
  change (λ p : chatroom_row * app_row * (Z * option Z),
            (chatroom_dict p.1.1 ++ app_dict p.1.2) ++ group_dict p.2)
    with triple_dict.
  f_equal. apply filter_ext_in.
  intros [[[????????] [???????]] [??]] _. sql_compute.
  by rewrite andb_true_r, !andb_assoc.
- apply order_rows_lift with (bef := recent_before).
  by intros [[[????????] [???????]] [??]] [[[????????] [???????]] [??]].
- by intros [[[????????] [???????]] [??]].
Qed.

End Queries.

(** *** Dictionaries and loops *)

Lemma bind_Ok {A B} (a : A) (f : A → res B) : Ok a ≫= f = f a.
Proof. done. Qed.

Lemma dict_lookup_app_fresh k v d :
  dict_lookup k d = None → dict_lookup k (d ++ [(k, v)]) = Some v.
Proof.
  induction d as [|[k' v'] d IH]; simpl.
  - by rewrite String.eqb_refl.
  - destruct (String.eqb k k'); [done|]. apply IH.
Qed.

Lemma dict_lookup_app_other k k' v d :
  k ≠ k' → dict_lookup k (d ++ [(k', v)]) = dict_lookup k d.
Proof.
  intros Hk. induction d as [|[k'' v'] d IH]; simpl.
  - by apply String.eqb_neq in Hk as ->.
  - by destruct (String.eqb k k'').
Qed.

Lemma dict_set_fresh k v d :
  dict_lookup k d = None → dict_set k v d = d ++ [(k, v)].
Proof.
  induction d as [|[k' v'] d IH]; simpl; [done|].
  destruct (String.eqb k k'); [done|]. intros Hd. by rewrite IH.
Qed.

Lemma dict_set_app_fresh k v w d :
  dict_lookup k d = None → dict_set k v (d ++ [(k, w)]) = d ++ [(k, v)].
Proof.
  induction d as [|[k' v'] d IH]; simpl.
  - by rewrite String.eqb_refl.
  - destruct (String.eqb k k'); [done|]. intros Hd. by rewrite IH.
Qed.

Lemma mapM_cons {A B} (f : A → res B) (x : A) (l : list A) :
  mapM f (x :: l) = y ← f x; k ← mapM f l; Ok (y :: k).
Proof. done. Qed.

Lemma mapM_fmap_Ok {A} (f : value → res value) (g h : A → value) (l : list A) :
  (∀ x, x ∈ l → f (g x) = Ok (h x)) → mapM f (g <$> l) = Ok (h <$> l).
Proof.
  induction l as [|x l IH]; intros Hf; [done|].
  rewrite !fmap_cons, mapM_cons, (Hf x) by left. rewrite bind_Ok, IH; [done|].
  intros y Hy. apply Hf. by right.
Qed.

(** *** The rounded quotient *)

Lemma round_half_even_le (n d N : Z) :
  0 < d → n ≤ N * d → round_half_even n d ≤ N.
Proof.
  intros Hd Hn. unfold round_half_even.
  pose proof (Z.div_mod n d ltac:(lia)) as Hdm.
  pose proof (Z.mod_pos_bound n d Hd) as Hr.
  assert (n / d ≤ N) by nia.
  destruct (Z.ltb_spec (2 * (n mod d)) d); [done|].
  assert (n / d + 1 ≤ N) by nia.
  destruct (Z.ltb_spec d (2 * (n mod d))); [done|]. by destruct (Z.even _).
Qed.

Lemma round_half_even_gt (n d K : Z) :
  0 < d → d < 2 * (n - K * d) → K < round_half_even n d.
Proof.
  intros Hd Hn. unfold round_half_even.
  pose proof (Z.div_mod n d ltac:(lia)) as Hdm.
  pose proof (Z.mod_pos_bound n d Hd) as Hr.
  assert (K ≤ n / d) by nia.
  destruct (Z.ltb_spec (2 * (n mod d)) d); [nia|].
  destruct (Z.ltb_spec d (2 * (n mod d))); [lia|]. destruct (Z.even _); nia.
Qed.

Lemma log2_ratio_le (a b : Z) : 0 < a → 0 < b → log2_ratio a b ≤ Z.log2 a.
Proof.
  intros Ha Hb. unfold log2_ratio. pose proof (Z.log2_nonneg b).
  destruct (_ <? _); lia.
Qed.

(** [2 ^ log2_ratio a b <= a / b], without fractions. *)
Lemma log2_ratio_spec (a b : Z) :
  0 < a → 0 < b →
  b * 2 ^ Z.max (log2_ratio a b) 0 ≤ a * 2 ^ Z.max (- log2_ratio a b) 0.
Proof.
  intros Ha Hb. unfold log2_ratio.
  set (d := Z.log2 a - Z.log2 b).
  destruct (Z.ltb_spec (a * 2 ^ Z.max (- d) 0) (b * 2 ^ Z.max d 0)) as [Hlt|Hge];
    [|done].
  destruct (Z.log2_spec a Ha) as [Hla _]. destruct (Z.log2_spec b Hb) as [_ Hlb].
  pose proof (Z.log2_nonneg a). pose proof (Z.log2_nonneg b).
  destruct (Z.le_gt_cases 1 d) as [Hd|Hd].
  - rewrite !Z.max_l, Z.max_r by lia. rewrite Z.pow_0_r, Z.mul_1_r.
    assert (2 ^ Z.log2 a = 2 ^ (d - 1) * 2 ^ Z.succ (Z.log2 b)) as Heq.
    { rewrite <-Z.pow_add_r by lia. f_equal. lia. }
    pose proof (Z.pow_pos_nonneg 2 (d - 1) ltac:(lia) ltac:(lia)). nia.
  - rewrite Z.max_r, Z.max_l by lia. rewrite Z.pow_0_r, Z.mul_1_r.
    assert (2 ^ Z.succ (Z.log2 b) = 2 ^ Z.log2 a * 2 ^ (- (d - 1))) as Heq.
    { rewrite <-Z.pow_add_r by lia. f_equal. lia. }
    pose proof (Z.pow_pos_nonneg 2 (- (d - 1)) ltac:(lia) ltac:(lia)). nia.
Qed.

Lemma Qceiling_frac (m : Z) (p : positive) (k : Z) :
  (k - 1) * Z.pos p < m → m ≤ k * Z.pos p → Qceiling (m # p) = k.
Proof.
  intros Hlo Hhi. unfold Qceiling, Qfloor, Qopp; simpl.
  pose proof (Z.div_mod (- m) (Z.pos p) ltac:(lia)) as Hdm.
  pose proof (Z.mod_pos_bound (- m) (Z.pos p) ltac:(lia)) as Hr. nia.
Qed.

(** Below 2^53 for the dividend and 2^1075 for the divisor, rounding the
    quotient to a float does not move its ceiling: the float lies between
    the same two integers as the quotient. *)
Lemma nearest_float_ceiling (a b k : Z) :
  0 < a < 2 ^ 53 → 1 ≤ b < 2 ^ 1075 →
  (k - 1) * b < a → a ≤ k * b →
  ∃ m e, nearest_float a b = (m, e)
         ∧ float_overflows m e = false
         ∧ Qceiling (inject_Z 1 * float_value m e) = k.
Proof.
  intros [Ha Ha53] [Hb Hb1075] Hlo Hhi.
  assert (1 ≤ k ≤ a) as Hk by nia.
  unfold nearest_float.
  pose proof (log2_ratio_le a b ltac:(lia) ltac:(lia)) as He0.
  pose proof (log2_ratio_spec a b ltac:(lia) ltac:(lia)) as Hspec.
  set (e0 := log2_ratio a b) in *.
  assert (Z.log2 a < 53) as Hla by (apply Z.log2_lt_pow2; lia).
  set (e := Z.max (e0 - 52) (-1074)).
  assert (e ≤ 0) as He by lia.
  eexists _, e. split; [reflexivity|].
  destruct (Z.leb_spec 0 e) as [He'|He'].
  - (* the quotient is at least 2^52: the divisor is 1 *)
    assert (e = 0) as He0' by lia. assert (e0 = 52) as -> by lia.
    rewrite He0'. rewrite Z.max_l, Z.max_r in Hspec by lia.
    change (2 ^ 0) with 1 in *. rewrite Z.mul_1_r in *.
    assert (b = 1) as -> by lia. assert (k = a) as -> by lia.
    assert (round_half_even a 1 = a) as ->.
    { unfold round_half_even. rewrite Z.div_1_r, Z.mod_1_r. done. }
    unfold float_overflows, float_value. simpl (0 <=? 0).
    cbv iota. rewrite Z.mul_1_r. split.
    + apply Z.leb_gt. lia.
    + unfold Qceiling, Qfloor, Qopp, Qmult, inject_Z; simpl.
      rewrite Z.div_1_r. destruct a; lia.
  - set (s := - e). assert (0 < s ≤ 1074) as Hs by lia.
    assert (0 < 2 ^ s) as HP by (apply Z.pow_pos_nonneg; lia).
    assert (b < 2 * 2 ^ s) as Hbs.
    { destruct (Z.le_gt_cases (-1074) (e0 - 52)) as [Hn|Hn].
      - (* normal: s = 52 - e0 *)
        assert (s = 52 - e0) as Hs' by lia.
        destruct (Z.le_gt_cases 0 e0) as [Hp|Hp].
        + rewrite Z.max_l, Z.max_r in Hspec by lia.
          change (2 ^ 0) with 1 in Hspec. rewrite Z.mul_1_r in Hspec.
          assert (2 ^ 53 = 2 ^ e0 * (2 * 2 ^ s)) as Heq.
          { rewrite <-(Z.pow_succ_r 2 s), <-Z.pow_add_r by lia. f_equal. lia. }
          pose proof (Z.pow_pos_nonneg 2 e0 ltac:(lia) Hp). nia.
        + rewrite Z.max_r, Z.max_l in Hspec by lia.
          change (2 ^ 0) with 1 in Hspec. rewrite Z.mul_1_r in Hspec.
          assert (2 * 2 ^ s = 2 ^ 53 * 2 ^ (- e0)) as Heq.
          { rewrite <-(Z.pow_succ_r 2 s), <-Z.pow_add_r by lia. f_equal. lia. }
          pose proof (Z.pow_pos_nonneg 2 (- e0) ltac:(lia) ltac:(lia)). nia.
      - (* subnormal: s = 1074 *)
        assert (s = 1074) as -> by lia.
        change (2 * 2 ^ 1074) with (2 ^ 1075). lia. }
    fold s.
    set (m := round_half_even (a * 2 ^ s) b).
    assert (m ≤ k * 2 ^ s) as Hup by (apply round_half_even_le; nia).
    assert ((k - 1) * 2 ^ s < m) as Hdown by (apply round_half_even_gt; nia).
    unfold float_overflows, float_value.
    replace (0 <=? e) with false by (symmetry; apply Z.leb_gt; lia). split.
    + apply Z.leb_gt. replace (1024 - e) with (1024 + s) by lia.
      rewrite Z.pow_add_r by lia.
      assert (2 ^ 53 < 2 ^ 1024) by (apply Z.pow_lt_mono_r; lia). nia.
    + fold s. replace (inject_Z 1 * (m # Z.to_pos (2 ^ s)))%Q
        with (1 * m # 1 * Z.to_pos (2 ^ s)) by done.
      rewrite Z.mul_1_l, Pos.mul_1_l.
      apply Qceiling_frac; rewrite Z2Pos.id by done; done.
Qed.

(** [math.ceil(a / b)] is the ceiling of the quotient, within those bounds. *)
Lemma truediv_ceiling (a b : Z) :
  0 ≤ a < 2 ^ 53 → 1 ≤ b < 2 ^ 1075 →
  ∃ quotient,
    truediv (VInt a) (VInt b) = Ok quotient
    ∧ (Qceiling quotient - 1) * b < a
    ∧ a ≤ Qceiling quotient * b.
Proof.
  intros Ha Hb. cbn [truediv].
  replace (b =? 0) with false by (symmetry; apply Z.eqb_neq; lia).
  destruct (Z.eqb_spec a 0) as [->|Hne].
  { exists 0%Q. change (Qceiling 0) with 0. split_and!; [done|lia|lia]. }
  pose (k := - ((- a) / b)).
  pose proof (Z.div_mod (- a) b ltac:(lia)) as Hdm.
  pose proof (Z.mod_pos_bound (- a) b ltac:(lia)) as Hr.
  destruct (nearest_float_ceiling a b k) as (m & e & Hme & Hov & Hceil);
    [lia|lia|unfold k; nia|unfold k; nia|].
  rewrite !Z.abs_eq by lia. rewrite Hme, Hov.
  replace (Z.sgn a * Z.sgn b) with 1
    by (rewrite !Z.sgn_pos by lia; done).
  eexists. split; [done|]. rewrite Hceil. unfold k. split; nia.
Qed.

(** The division raises for a zero divisor or a quotient beyond the floats,
    and for nothing else. *)
Lemma truediv_raises (a b : Z) (e : exn) :
  truediv (VInt a) (VInt b) = Raise e →
  (e = ZeroDivisionError ∧ b = 0) ∨ (e = OverflowError ∧ b ≠ 0).
Proof.
  cbn [truediv]. destruct (Z.eqb_spec b 0) as [->|Hb].
  - intros [= <-]. by left.
  - destruct (a =? 0); [done|]. destruct (nearest_float _ _) as [m x].
    destruct (float_overflows m x); [|done]. intros [= <-]. by right.
Qed.

Section Hydration.
Variable db : database.
Variable show_agents : value → res value.
Variable negative : negative_policy.

Local Abbreviation Q := (spec_store db show_agents negative).

(** One link: an entry is appended when its agent id is positive. *)
Lemma hydrate_link_spec (d : dict) (acc : list value) (l : relation_row) :
  dict_lookup "agent_list" d = None →
  hydrate_link (store := Q) (VDict (d ++ [("agent_list", VList acc)]))
      (VDict (link_view l)) =
    Ok (VDict (d ++ [("agent_list",
          VList (acc ++ if 0 <? rl_agent_id l
                        then [agent_info db (rl_agent_id l)] else []))])).
Proof.
  intros Hd. unfold hydrate_link.
  change (getitem (VDict (link_view l)) "agent_id") with (Ok (VInt (rl_agent_id l))).
  rewrite bind_Ok. cbn [gt]. rewrite bind_Ok.
  destruct (0 <? rl_agent_id l); [|by rewrite app_nil_r].
  unfold getitem. rewrite dict_lookup_app_fresh, bind_Ok by done.
  change (select_one Agents _)
    with (spec_select_one db Agents (agent_query (VInt (rl_agent_id l)))).
  rewrite select_one_agent, bind_Ok.
  cbn [append]. rewrite bind_Ok. unfold setitem.
  by rewrite dict_set_app_fresh.
Qed.

Lemma for_each_links (d : dict) (ls : list relation_row) (acc : list value) :
  dict_lookup "agent_list" d = None →
  for_each (hydrate_link (store := Q)) (VDict (d ++ [("agent_list", VList acc)]))
      (VDict <$> (link_view <$> ls)) =
    Ok (VDict (d ++ [("agent_list",
          VList (acc ++ ((λ l, agent_info db (rl_agent_id l)) <$>
                         List.filter (λ l, 0 <? rl_agent_id l) ls)))])).
Proof.
  intros Hd. revert acc. induction ls as [|l ls IH]; intros acc; csimpl.
  - by rewrite app_nil_r.
  - rewrite hydrate_link_spec, bind_Ok, IH by done.
    destruct (0 <? rl_agent_id l); csimpl; by rewrite <-?app_assoc, ?app_nil_r.
Qed.

Lemma hydrate_room_spec (p : chatroom_row * app_row) :
  hydrate_room (store := Q) (VDict (room_view p)) = Ok (room_item db p).
Proof.
  assert (dict_lookup "agent_list" (room_view p) = None) as Hd by done.
  unfold hydrate_room, setitem. rewrite bind_Ok, dict_set_fresh by done.
  unfold getitem at 1. rewrite dict_lookup_app_other by done.
  change (dict_lookup "chatroom_id" (room_view p)) with (Some (VInt (cr_id p.1))).
  cbv iota. rewrite bind_Ok.
  change (select ChatroomAgentRelation _)
    with (spec_select db negative ChatroomAgentRelation
            (links_query (VInt (cr_id p.1)))).
  rewrite select_links, bind_Ok.
  rewrite for_each_links by done.
  unfold room_item, agent_entries, agent_links.
  by destruct (room_links db (cr_id p.1)).
Qed.

(** The whole of [all_chat_room_list]: when the query layer takes the page
    query, the call ends as the division does, with the page and its counts
    or with the exception of the division. *)
Lemma all_chat_room_list_eval (page page_size uid : Z) (name : string) :
  all_chat_room_list (store := Q) page page_size uid name =
    if accepts negative (Some page_size) (Some ((page - 1) * page_size)) then
      let total_count := Z.of_nat (length (visible_rooms db uid name)) in
      quotient ← truediv (VInt total_count) (VInt page_size);
      Ok (VDict
        [("list", VList (room_item db <$> page_rooms db page page_size uid name));
         ("total_count", VInt total_count);
         ("total_pages", math_ceil quotient);
         ("page", VInt page);
         ("page_size", VInt page_size)])
    else Raise (DatabaseError "negative LIMIT or OFFSET").
Proof.
  unfold all_chat_room_list.
  change (select_one table_name _)
    with (spec_select_one db table_name (count_query (list_conditions uid name))).
  change (select table_name _)
    with (spec_select db negative table_name
            (page_query (list_conditions uid name) page page_size)).
  rewrite select_one_count, bind_Ok.
  change (getitem (VDict [("count_id", ?v)]) "count_id") with (Ok v).
  rewrite bind_Ok. unfold spec_select.
  rewrite rows_of_page.
  cbn [q_limit q_offset page_query].
  destruct (accepts _ _ _); [|done]. rewrite bind_Ok.
  rewrite <-list_fmap_compose, (mapM_fmap_Ok _ _ (room_item db))
    by (intros; apply hydrate_room_spec).
  by rewrite bind_Ok.
Qed.

End Hydration.

End RelFacts.

(* ===================================================================== *)
(** ** Properties of the three operations *)
(* ===================================================================== *)

Import SqlFacts RelFacts.

(** *** What a page is made of *)

Lemma elem_of_visible_rooms db uid name c a :
  (c, a) ∈ visible_rooms db uid name ↔
  c ∈ chatrooms db ∧ a ∈ apps db ∧ visibleb uid name c a = true.
Proof.
  unfold visible_rooms. rewrite list_elem_of_bind. split.
  - intros (c' & Hin & Hc). apply list_elem_of_fmap in Hin as (a' & [= -> ->] & Ha).
    apply elem_of_filter in Ha as [??]. done.
  - intros (Hc & Ha & Hv). exists c. split; [|done].
    apply list_elem_of_fmap. exists a. split; [done|]. by apply elem_of_filter.
Qed.

Lemma visibleb_true uid name c a :
  visibleb uid name c a = true →
  cr_app_id c = ap_id a ∧ cr_status c = 1 ∧ ap_status a = 1 ∧ ap_mode a = 5
  ∧ cr_user_id c = uid.
Proof.
  unfold visibleb. rewrite !andb_true_iff, !Z.eqb_eq. tauto.
Qed.

Lemma page_rooms_sublist db page page_size uid name :
  page_rooms db page page_size uid name
    `sublist_of` sort_by room_before (visible_rooms db uid name).
Proof. apply window_sublist. Qed.

Lemma elem_of_page_rooms db page page_size uid name p :
  p ∈ page_rooms db page page_size uid name → p ∈ visible_rooms db uid name.
Proof.
  intros Hp. eapply elem_of_sort_by, elem_of_sublist; [done|].
  apply page_rooms_sublist.
Qed.

(** A limit and an offset that are not negative are accepted whatever the
    layer does with negative ones. *)
Lemma accepts_nonneg neg (limit offset : Z) :
  0 ≤ limit → 0 ≤ offset → accepts neg (Some limit) (Some offset) = true.
Proof.
  intros Hl Ho. unfold accepts, in_range.
  replace (0 <=? limit) with true by (symmetry; apply Z.leb_le; lia).
  replace (0 <=? offset) with true by (symmetry; apply Z.leb_le; lia). done.
Qed.

(** A call that returns gives the hydrated page, the count, the ceiling of the
    rounded quotient, and its two arguments as they came. *)
Lemma all_chat_room_list_Ok db show neg page page_size uid name v :
  all_chat_room_list (store := spec_store db show neg) page page_size uid name
    = Ok v →
  ∃ quotient,
    truediv (VInt (Z.of_nat (length (visible_rooms db uid name)))) (VInt page_size)
      = Ok quotient
    ∧ v = VDict
        [("list", VList (room_item db <$> page_rooms db page page_size uid name));
         ("total_count", VInt (Z.of_nat (length (visible_rooms db uid name))));
         ("total_pages", math_ceil quotient);
         ("page", VInt page);
         ("page_size", VInt page_size)].
Proof.
  rewrite all_chat_room_list_eval.
  destruct (accepts _ _ _); [|done]. cbv zeta.
  destruct (truediv _ _) as [quotient|]; [|done].
  rewrite bind_Ok. intros [= <-]. by exists quotient.
Qed.

Lemma all_chat_room_list_items db show neg page page_size uid name v :
  all_chat_room_list (store := spec_store db show neg) page page_size uid name = Ok v →
  items v = room_item db <$> page_rooms db page page_size uid name.
Proof. by intros (quotient & _ & ->)%all_chat_room_list_Ok. Qed.

Lemma room_item_fields db p :
  field (room_item db p) "chatroom_id" = VInt (cr_id p.1)
  ∧ field (room_item db p) "app_id" = VInt (ap_id p.2)
  ∧ field (room_item db p) "agent_list" = VList (agent_entries db (cr_id p.1)).
Proof. by destruct p as [[????????] [???????]]. Qed.

(** *** The links behind an agent list *)

Lemma filter_Permutation {A} (p : A → bool) (l k : list A) :
  l ≡ₚ k → List.filter p l ≡ₚ List.filter p k.
Proof.
  induction 1 as [|x l k _ IH|x y l|l k m _ IH1 _ IH2]; simpl.
  - done.
  - destruct (p x); by rewrite IH.
  - destruct (p x), (p y); try done. apply Permutation_swap.
  - by etrans.
Qed.

Lemma agent_links_Permutation db rid :
  agent_links db rid ≡ₚ
  List.filter (λ l, (rl_chatroom_id l =? rid) && (0 <? rl_agent_id l))
    (chatroom_agent_relation db).
Proof.
  unfold agent_links, room_links. rewrite filter_andb.
  apply filter_Permutation, sort_by_perm.
Qed.

Lemma agent_links_Forall db rid :
  Forall (λ l, l ∈ chatroom_agent_relation db ∧ rl_chatroom_id l = rid
               ∧ 0 < rl_agent_id l) (agent_links db rid).
Proof.
  apply Forall_forall. intros l. rewrite agent_links_Permutation.
  rewrite elem_of_filter, andb_true_iff, Z.eqb_eq, Z.ltb_lt. naive_solver.
Qed.

Lemma agent_links_sorted db rid :
  StronglySorted (λ l1 l2, rl_id l2 ≤ rl_id l1) (agent_links db rid).
Proof.
  eapply StronglySorted_sublist; [apply filter_sublist|].
  apply (sort_by_sorted link_before rl_id (λ _, True)); [done|].
  by apply Forall_forall.
Qed.

(** *** Primary keys *)

Lemma filter_key_unique {A} (key : A → Z) (k : Z) (l : list A) :
  NoDup (key <$> l) → (length (List.filter (λ x, Z.eqb k (key x)) l) ≤ 1)%nat.
Proof.
  induction l as [|x l IH]; csimpl; [lia|].
  intros [Hx Hl]%NoDup_cons. destruct (Z.eqb_spec k (key x)) as [->|]; [|auto].
  simpl. rewrite (filter_ext_in _ (λ _, false)).
  - clear. induction l; simpl; [lia|done].
  - intros y Hy. apply Z.eqb_neq. intros Heq. apply Hx.
    rewrite Heq. by apply list_elem_of_fmap_2.
Qed.

Lemma visible_rooms_NoDup db uid name :
  NoDup (cr_id <$> chatrooms db) → NoDup (ap_id <$> apps db) →
  NoDup ((λ p, cr_id p.1) <$> visible_rooms db uid name).
Proof.
  intros Hc Ha. apply (sublist_NoDup _ (cr_id <$> chatrooms db)); [exact Hc|].
  unfold visible_rooms. clear Hc.
  induction (chatrooms db) as [|c cs IH]; csimpl; [done|].
  rewrite fmap_app. change (cr_id c :: (cr_id <$> cs)) with ([cr_id c] ++ (cr_id <$> cs)).
  apply sublist_app; [|done].
  pose proof (filter_key_unique ap_id (cr_app_id c) (apps db) Ha) as Hlen.
  rewrite (filter_ext_in (visibleb uid name c)
             (λ a, (cr_app_id c =? ap_id a) && whereb uid name c a))
    by (intros; apply visibleb_whereb).
  rewrite filter_andb.
  assert (length (List.filter (whereb uid name c)
            (List.filter (λ a, Z.eqb (cr_app_id c) (ap_id a)) (apps db))) ≤ 1)%nat
    as Hle.
  { etrans; [|exact Hlen]. apply sublist_length, filter_sublist. }
  destruct (List.filter (whereb uid name c) _) as [|a [|??]]; simpl in *;
    [apply sublist_nil_l|done|lia].
Qed.

Lemma page_rooms_ids_sorted db page page_size uid name :
  StronglySorted (λ a b, b ≤ a)
    ((λ p, cr_id p.1) <$> page_rooms db page page_size uid name).
Proof.
  apply (StronglySorted_fmap _ (λ p q, cr_id q.1 ≤ cr_id p.1)); [done|].
  eapply StronglySorted_sublist; [apply page_rooms_sublist|].
  apply (sort_by_sorted room_before (λ p, cr_id p.1) (λ _, True)); [done|].
  by apply Forall_forall.
Qed.

Lemma page_rooms_ids_NoDup db page page_size uid name :
  NoDup (cr_id <$> chatrooms db) → NoDup (ap_id <$> apps db) →
  NoDup ((λ p, cr_id p.1) <$> page_rooms db page page_size uid name).
Proof.
  intros Hc Ha.
  apply (sublist_NoDup _ ((λ p, cr_id p.1) <$>
                          sort_by room_before (visible_rooms db uid name))).
  - rewrite sort_by_perm. by apply visible_rooms_NoDup.
  - apply fmap_sublist, page_rooms_sublist.
Qed.


(** *** The claims *)

(** C1.  For every valid input (page >= 1, page_size >= 1) the paginated
    lister returns, and its total_pages is the ceiling of
    total_count / page_size: the integer [t] with
    [(t - 1) * page_size < total_count <= t * page_size]; total_count is the
    number of visible rooms, and no room gives no page.  The quotient is a
    float ([total_count / page_size] on two ints), so the statement carries
    the bounds within which rounding it keeps its ceiling: fewer than 2^53
    visible rooms and a page size below 2^1075. *)
Theorem total_pages_is_ceiling db show neg (page page_size uid : Z) (name : string) :
  1 ≤ page → 1 ≤ page_size < 2 ^ 1075 →
  Z.of_nat (length (visible_rooms db uid name)) < 2 ^ 53 →
  ∃ rooms total_count total_pages,
    all_chat_room_list (store := spec_store db show neg) page page_size uid name =
      Ok (VDict [("list", VList rooms);
                 ("total_count", VInt total_count);
                 ("total_pages", VInt total_pages);
                 ("page", VInt page);
                 ("page_size", VInt page_size)])
    ∧ total_count = Z.of_nat (length (visible_rooms db uid name))
    ∧ (total_pages - 1) * page_size < total_count
    ∧ total_count ≤ total_pages * page_size
    ∧ (total_count = 0 → total_pages = 0).
Proof.
  intros Hpage Hsize Hcount. rewrite all_chat_room_list_eval.
  rewrite accepts_nonneg by nia. cbv zeta.
  set (n := Z.of_nat (length (visible_rooms db uid name))) in *.
  destruct (truediv_ceiling n page_size) as (quotient & -> & Hlo & Hhi);
    [lia|lia|].
  rewrite bind_Ok. unfold math_ceil.
  eexists _, n, (Qceiling quotient). split_and!; [done|done|exact Hlo|exact Hhi|].
  intros Hn. nia.
Qed.

Lemma total_pages_is_ceiling_witness :
  ∃ rooms total_count total_pages,
    all_chat_room_list (store := spec_store demo demo_agents Refuses) 2 1 3 "" =
      Ok (VDict [("list", VList rooms);
                 ("total_count", VInt total_count);
                 ("total_pages", VInt total_pages);
                 ("page", VInt 2);
                 ("page_size", VInt 1)])
    ∧ total_count = Z.of_nat (length (visible_rooms demo 3 ""))
    ∧ (total_pages - 1) * 1 < total_count
    ∧ total_count ≤ total_pages * 1
    ∧ (total_count = 0 → total_pages = 0).
Proof.
  apply (total_pages_is_ceiling demo demo_agents Refuses 2 1 3 "");
    [lia|split; [lia|reflexivity]|reflexivity].
Defined.

(** C3.  In every room of a returned page, the agent list holds one entry
    for each link of the room whose agent id is positive and none for the
    others: the entries are the joined views of the agents of exactly the
    positive links. *)
Theorem nonpositive_links_skipped db show neg (page page_size uid : Z) (name : string)
    (v item : value) :
  all_chat_room_list (store := spec_store db show neg) page page_size uid name = Ok v →
  item ∈ items v →
  ∃ rid links,
    field item "chatroom_id" = VInt rid
    ∧ field item "agent_list" = VList ((λ l, agent_info db (rl_agent_id l)) <$> links)
    ∧ links ≡ₚ List.filter (λ l, (rl_chatroom_id l =? rid) && (0 <? rl_agent_id l))
                 (chatroom_agent_relation db)
    ∧ Forall (λ l, 0 < rl_agent_id l) links.
Proof.
  intros Hv Hitem. rewrite (all_chat_room_list_items _ _ _ _ _ _ _ _ Hv) in Hitem.
  apply list_elem_of_fmap in Hitem as (p & -> & _).
  destruct (room_item_fields db p) as (Hid & _ & Hagents).
  exists (cr_id p.1), (agent_links db (cr_id p.1)).
  split_and!; [done|done|apply agent_links_Permutation|].
  eapply Forall_impl; [apply agent_links_Forall|]. by intros ? (_ & _ & ?).
Qed.

(** Room 10 has the links [{agent 0}; {agent 7}]: its agent list has exactly
    one entry. *)
Lemma nonpositive_links_skipped_witness :
  ∃ rid links,
    field (room_item demo (room 10 3 100 1, app 100 1 5 "alpha")) "chatroom_id"
      = VInt rid
    ∧ field (room_item demo (room 10 3 100 1, app 100 1 5 "alpha")) "agent_list"
      = VList ((λ l, agent_info demo (rl_agent_id l)) <$> links)
    ∧ links ≡ₚ List.filter (λ l, (rl_chatroom_id l =? rid) && (0 <? rl_agent_id l))
                 (chatroom_agent_relation demo)
    ∧ Forall (λ l, 0 < rl_agent_id l) links.
Proof.
  apply (nonpositive_links_skipped demo demo_agents Refuses 1 10 3 "" demo_page).
  - reflexivity.
  - vm_compute. right. left.
Defined.

Example room_10_has_one_agent :
  ∃ entry,
    field (room_item demo (room 10 3 100 1, app 100 1 5 "alpha")) "agent_list"
      = VList [entry]
    ∧ field entry "agent_id" = VInt 7.
Proof. eexists. split; reflexivity. Qed.

(** C4.  When [id] is the primary key of the rooms and of the applications,
    the rooms of every returned page are in strictly descending order of room
    id; the entries of each agent list follow the links of the room in
    descending order of link id. *)
Theorem page_order db show neg (page page_size uid : Z) (name : string) (v : value) :
  NoDup (cr_id <$> chatrooms db) → NoDup (ap_id <$> apps db) →
  all_chat_room_list (store := spec_store db show neg) page page_size uid name = Ok v →
  (∃ ids, (λ item, field item "chatroom_id") <$> items v = VInt <$> ids
          ∧ StronglySorted (λ a b, b < a) ids)
  ∧ ∀ item, item ∈ items v →
      ∃ rid links,
        field item "chatroom_id" = VInt rid
        ∧ field item "agent_list"
            = VList ((λ l, agent_info db (rl_agent_id l)) <$> links)
        ∧ StronglySorted (λ l1 l2, rl_id l2 ≤ rl_id l1) links
        ∧ Forall (λ l, l ∈ chatroom_agent_relation db ∧ rl_chatroom_id l = rid
                       ∧ 0 < rl_agent_id l) links.
Proof.
  intros Hrooms Happs Hv. rewrite (all_chat_room_list_items _ _ _ _ _ _ _ _ Hv).
  split.
  - exists ((λ p, cr_id p.1) <$> page_rooms db page page_size uid name). split.
    + rewrite <-!list_fmap_compose. apply list_fmap_ext. intros _ p _.
      apply room_item_fields.
    + apply StronglySorted_strict; [apply page_rooms_ids_sorted|].
      by apply page_rooms_ids_NoDup.
  - intros item (p & -> & _)%list_elem_of_fmap.
    destruct (room_item_fields db p) as (Hid & _ & Hagents).
    exists (cr_id p.1), (agent_links db (cr_id p.1)).
    split_and!; [done|done|apply agent_links_sorted|apply agent_links_Forall].
Qed.

Lemma page_order_witness :
  (∃ ids, (λ item, field item "chatroom_id") <$> items demo_page = VInt <$> ids
          ∧ StronglySorted (λ a b, b < a) ids)
  ∧ ∀ item, item ∈ items demo_page →
      ∃ rid links,
        field item "chatroom_id" = VInt rid
        ∧ field item "agent_list"
            = VList ((λ l, agent_info demo (rl_agent_id l)) <$> links)
        ∧ StronglySorted (λ l1 l2, rl_id l2 ≤ rl_id l1) links
        ∧ Forall (λ l, l ∈ chatroom_agent_relation demo ∧ rl_chatroom_id l = rid
                       ∧ 0 < rl_agent_id l) links.
Proof.
  apply (page_order demo demo_agents Refuses 1 10 3 "" demo_page).
  - apply (bool_decide_unpack _). vm_compute. exact I.
  - apply (bool_decide_unpack _). vm_compute. exact I.
  - reflexivity.
Defined.

(** C5.  Every room of a returned page is an active room of the user whose
    application is active and of mode 5; the page is cut out of the same list
    of rooms that total_count counts. *)
Theorem only_visible_rooms db show neg (page page_size uid : Z) (name : string)
    (v : value) :
  all_chat_room_list (store := spec_store db show neg) page page_size uid name = Ok v →
  (∀ item, item ∈ items v →
     ∃ c a, c ∈ chatrooms db ∧ a ∈ apps db
            ∧ field item "chatroom_id" = VInt (cr_id c)
            ∧ field item "app_id" = VInt (ap_id a)
            ∧ cr_app_id c = ap_id a
            ∧ cr_status c = 1 ∧ ap_status a = 1 ∧ ap_mode a = 5
            ∧ cr_user_id c = uid)
  ∧ ∃ rooms,
      items v = room_item db <$> rooms
      ∧ rooms `sublist_of` sort_by room_before (visible_rooms db uid name)
      ∧ field v "total_count" = VInt (Z.of_nat (length (visible_rooms db uid name))).
Proof.
  intros Hv. pose proof (all_chat_room_list_items _ _ _ _ _ _ _ _ Hv) as Hitems.
  split.
  - rewrite Hitems. intros item ([c a] & -> & Hp)%list_elem_of_fmap.
    apply elem_of_page_rooms, elem_of_visible_rooms in Hp as (Hc & Ha & Hvis).
    destruct (room_item_fields db (c, a)) as (Hid & Happ & _).
    apply visibleb_true in Hvis as (? & ? & ? & ? & ?).
    exists c, a. by split_and!.
  - exists (page_rooms db page page_size uid name).
    split_and!; [done|apply page_rooms_sublist|].
    by apply all_chat_room_list_Ok in Hv as (quotient & _ & ->).
Qed.

Lemma only_visible_rooms_witness :
  (∀ item, item ∈ items demo_page →
     ∃ c a, c ∈ chatrooms demo ∧ a ∈ apps demo
            ∧ field item "chatroom_id" = VInt (cr_id c)
            ∧ field item "app_id" = VInt (ap_id a)
            ∧ cr_app_id c = ap_id a
            ∧ cr_status c = 1 ∧ ap_status a = 1 ∧ ap_mode a = 5
            ∧ cr_user_id c = 3)
  ∧ ∃ rooms,
      items demo_page = room_item demo <$> rooms
      ∧ rooms `sublist_of` sort_by room_before (visible_rooms demo 3 "")
      ∧ field demo_page "total_count"
        = VInt (Z.of_nat (length (visible_rooms demo 3 ""))).
Proof.
  apply (only_visible_rooms demo demo_agents Refuses 1 10 3 "" demo_page). reflexivity.
Defined.

(** C10.  A link with a positive agent id that matches no agent row puts
    [None] into the agent list of its room: the result of the lookup is
    appended as it is. *)
Theorem dangling_link_appends_none db show neg (page page_size uid : Z) (name : string)
    (v item : value) (l : relation_row) :
  all_chat_room_list (store := spec_store db show neg) page page_size uid name = Ok v →
  item ∈ items v →
  l ∈ chatroom_agent_relation db →
  field item "chatroom_id" = VInt (rl_chatroom_id l) →
  0 < rl_agent_id l →
  (∀ a, a ∈ agents db → ag_id a ≠ rl_agent_id l) →
  ∃ entries, field item "agent_list" = VList entries ∧ VNone ∈ entries.
Proof.
  intros Hv Hitem Hl Hid Hpos Hnone.
  rewrite (all_chat_room_list_items _ _ _ _ _ _ _ _ Hv) in Hitem.
  apply list_elem_of_fmap in Hitem as (p & -> & _).
  destruct (room_item_fields db p) as (Hid' & _ & Hagents).
  rewrite Hid' in Hid. injection Hid as Hid.
  exists (agent_entries db (cr_id p.1)). split; [done|].
  assert (agent_info db (rl_agent_id l) = VNone) as <-.
  { unfold agent_info.
    destruct (List.filter _ (agent_pairs db)) as [|q qs] eqn:Hq; [done|].
    assert (q ∈ List.filter (λ p, ag_id p.1 =? rl_agent_id l) (agent_pairs db))
      as [Hin Hq']%elem_of_filter by (rewrite Hq; left).
    apply Z.eqb_eq in Hq'. unfold agent_pairs in Hin.
    apply list_elem_of_bind in Hin as (a & Hin & Ha). destruct (Hnone a Ha).
    destruct (List.filter _ (apps db)).
    - apply list_elem_of_singleton in Hin as ->. done.
    - apply list_elem_of_fmap in Hin as (? & -> & _). done. }
  unfold agent_entries. apply list_elem_of_fmap. exists l. split; [done|].
  rewrite agent_links_Permutation. apply elem_of_filter. split; [done|].
  apply andb_true_iff. split; [apply Z.eqb_eq; lia|by apply Z.ltb_lt].
Qed.

(** Room 14 has a link to agent 8, which does not exist. *)
Lemma dangling_link_appends_none_witness :
  ∃ entries,
    field (room_item demo (room 14 3 100 1, app 100 1 5 "alpha")) "agent_list"
      = VList entries ∧ VNone ∈ entries.
Proof.
  apply (dangling_link_appends_none demo demo_agents Refuses 1 10 3 "" demo_page _
           {| rl_id := 4; rl_chatroom_id := 14; rl_agent_id := 8 |}).
  - reflexivity.
  - vm_compute. left.
  - apply list_elem_of_In. simpl. tauto.
  - reflexivity.
  - simpl. lia.
  - intros a Ha%list_elem_of_In. simpl in Ha.
    destruct Ha as [<-|[<-|[]]]; simpl; lia.
Defined.

(** *** The room lookup *)

Lemma search_chatrooms_id_eval db show neg (rid uid : Z) :
  search_chatrooms_id (store := spec_store db show neg) rid uid =
    Ok (match List.filter (ownedb rid uid) (chatrooms db) with
        | c :: _ => room_state c
        | [] => not_found
        end).
Proof.
  unfold search_chatrooms_id.
  change (select_one table_name _)
    with (spec_select_one db table_name (search_query rid uid)).
  rewrite select_one_room, bind_Ok.
  by destruct (List.filter _ (chatrooms db)) as [|[????????] ?].
Qed.

Lemma ownedb_true rid uid c :
  ownedb rid uid c = true ↔ cr_id c = rid ∧ cr_user_id c = uid ∧ cr_status c = 1.
Proof. unfold ownedb. rewrite !andb_true_iff, !Z.eqb_eq. tauto. Qed.

(** C2.  [search_chatrooms_id] returns the state of a room with status 1
    exactly when some room has the given id, the given owner and status 1, and
    returns [{status: 0}] otherwise; it never raises.  A room of another
    user is not found. *)
Theorem search_chatrooms_id_found_iff db show neg (rid uid : Z) :
  let result := search_chatrooms_id (store := spec_store db show neg) rid uid in
  let owned c := c ∈ chatrooms db ∧ cr_id c = rid ∧ cr_user_id c = uid
                 ∧ cr_status c = 1 in
  ((∃ c, owned c) ↔ ∃ c, owned c ∧ result = Ok (room_state c))
  ∧ ((¬ ∃ c, owned c) ↔ result = Ok not_found)
  ∧ ((∀ c, c ∈ chatrooms db → cr_id c = rid → cr_user_id c ≠ uid) →
     result = Ok not_found)
  ∧ ∀ e, result ≠ Raise e.
Proof.
  intros result owned. unfold result. rewrite search_chatrooms_id_eval.
  assert (∀ c, owned c ↔ c ∈ List.filter (ownedb rid uid) (chatrooms db)) as Hown.
  { intros c. unfold owned. rewrite elem_of_filter, ownedb_true. tauto. }
  destruct (List.filter _ (chatrooms db)) as [|c cs].
  - assert (¬ ∃ c, owned c) as Hnone.
    { intros [c Hc%Hown]. by apply not_elem_of_nil in Hc. }
    split_and!; [|done|done|done].
    split; [done|]. intros (c & Hc & _). eauto.
  - assert (owned c) as Hc by (apply Hown; left).
    split_and!.
    + split; [eauto|]. intros (c' & ? & _). eauto.
    + split; [|done]. intros Hnone. destruct Hnone. eauto.
    + intros Hother. destruct Hc as (Hin & Hid & Huid & _).
      by destruct (Hother c Hin Hid).
    + done.
Qed.

(** Room 12 is active and belongs to user 4: user 3 does not find it. *)
Lemma search_chatrooms_id_found_iff_witness :
  search_chatrooms_id (store := spec_store demo demo_agents Refuses) 12 3 = Ok not_found.
Proof.
  destruct (search_chatrooms_id_found_iff demo demo_agents Refuses 12 3) as (_ & _ & H & _).
  apply H. intros c Hc%list_elem_of_In Hid. simpl in Hc.
  repeat destruct Hc as [<-|Hc]; simpl in *; lia.
Defined.

Example search_chatrooms_id_found :
  search_chatrooms_id (store := spec_store demo demo_agents Refuses) 10 3 =
    Ok (VDict [("status", VInt 1); ("max_round", VInt 7); ("app_id", VInt 100);
               ("chatroom_status", VInt 1); ("smart_selection", VInt 1)]).
Proof. reflexivity. Qed.

(** *** The recent rooms, over any query layer *)

Lemma dict_lookup_set_same k v d : dict_lookup k (dict_set k v d) = Some v.
Proof.
  induction d as [|[k' v'] d IH]; simpl.
  - by rewrite String.eqb_refl.
  - destruct (String.eqb k k') eqn:Hk; simpl; rewrite ?String.eqb_refl, ?Hk; done.
Qed.

Lemma dict_lookup_set_other k k' v d :
  k ≠ k' → dict_lookup k (dict_set k' v d) = dict_lookup k d.
Proof.
  intros Hk. induction d as [|[k'' v'] d IH]; simpl.
  - by apply String.eqb_neq in Hk as ->.
  - destruct (String.eqb k' k'') eqn:Hk'; simpl.
    + apply String.eqb_eq in Hk' as <-. by apply String.eqb_neq in Hk as ->.
    + by rewrite IH.
Qed.

Lemma mapM_Ok_Forall2 {A B} (f : A → res B) (l : list A) (k : list B) :
  mapM f l = Ok k → Forall2 (λ x y, f x = Ok y) l k.
Proof.
  revert k. induction l as [|x l IH]; intros k.
  - intros [= <-]. constructor.
  - rewrite mapM_cons. destruct (f x) as [y|] eqn:Hx; [|done].
    rewrite bind_Ok. destruct (mapM f l) as [k'|]; [|done].
    intros [= <-]. constructor; auto.
Qed.

Lemma mapM_Raise {A B} (f : A → res B) (l : list A) (x : A) (e : exn) :
  x ∈ l → f x = Raise e → ∃ e', mapM f l = Raise e'.
Proof.
  intros Hx. induction Hx as [x l|x y l Hx IH]; intros Hf; rewrite mapM_cons.
  - rewrite Hf. by eexists.
  - destruct (f y); [|by eexists]. rewrite bind_Ok.
    destruct (IH Hf) as [e' ->]. by eexists.
Qed.

Section AnyStore.
Context {store : QueryLayer}.

(** One turn of the loop of [recent_chatroom_list]. *)
Lemma attach_agents_Ok (row item : value) :
  attach_agents row = Ok item →
  field item "chatroom_id" = field row "chatroom_id"
  ∧ if truthy (field row "chatroom_id")
    then ∃ agent_list,
           show_chatroom_agent (field row "chatroom_id") = Ok agent_list
           ∧ getitem item "agent_list" = Ok agent_list
    else item = row.
Proof.
  unfold attach_agents. destruct row as [| | | |d]; try done.
  cbn [get field]. rewrite bind_Ok.
  destruct (truthy _); [|by intros [= <-]].
  destruct (show_chatroom_agent _) as [agent_list|]; [|done].
  rewrite bind_Ok. intros [= <-]. cbn [field getitem].
  rewrite dict_lookup_set_other, dict_lookup_set_same by done. eauto.
Qed.

Lemma recent_chatroom_list_Ok (chatroom_id uid : Z) (v : value) :
  recent_chatroom_list chatroom_id uid = Ok v →
  v = empty_list
  ∨ ∃ rows, execute_query (recent_query uid chatroom_id) = Ok rows
            ∧ Forall2 (λ row item, attach_agents row = Ok item) rows (items v).
Proof.
  unfold recent_chatroom_list, recent_chatroom_list_try, try_except.
  destruct (execute_query _) as [rows|]; [|intros [= <-]; by left].
  rewrite bind_Ok. destruct (mapM attach_agents rows) as [l|] eqn:Hl.
  - rewrite bind_Ok. intros [= <-]. right. exists rows. split; [done|].
    by apply mapM_Ok_Forall2.
  - intros [= <-]. by left.
Qed.

Lemma recent_chatroom_list_never_raises (chatroom_id uid : Z) (e : exn) :
  recent_chatroom_list chatroom_id uid ≠ Raise e.
Proof.
  unfold recent_chatroom_list, try_except.
  by destruct (recent_chatroom_list_try _ _).
Qed.

End AnyStore.

(** C7.  Over any query layer, whatever it raises: [recent_chatroom_list]
    never raises; when the raw query raises, or when the loop raises on any
    of the rows (in particular when the agent list helper raises for a room),
    it returns [{"list": []}], which is also what it returns when the query
    finds no room. *)
Theorem recent_errors_swallowed (store : QueryLayer) (chatroom_id uid : Z) :
  let result := recent_chatroom_list chatroom_id uid in
  let query := execute_query (recent_query uid chatroom_id) in
  (∀ e, result ≠ Raise e)
  ∧ (∀ e, query = Raise e → result = Ok empty_list)
  ∧ (∀ rows row e, query = Ok rows → row ∈ rows → attach_agents row = Raise e →
       result = Ok empty_list)
  ∧ (∀ rows d e, query = Ok rows → VDict d ∈ rows →
       truthy (field (VDict d) "chatroom_id") = true →
       show_chatroom_agent (field (VDict d) "chatroom_id") = Raise e →
       result = Ok empty_list)
  ∧ (query = Ok [] → result = Ok empty_list).
Proof.
  intros result query.
  assert (∀ rows row e, query = Ok rows → row ∈ rows →
            attach_agents row = Raise e → result = Ok empty_list) as Hloop.
  { intros rows row e Hq Hrow Hraise.
    unfold result, recent_chatroom_list, recent_chatroom_list_try.
    fold query. rewrite Hq, bind_Ok.
    by destruct (mapM_Raise attach_agents rows row e) as [e' ->]. }
  unfold result, query in *. split_and!.
  - apply recent_chatroom_list_never_raises.
  - intros e Hq. unfold recent_chatroom_list, recent_chatroom_list_try.
    by rewrite Hq.
  - exact Hloop.
  - intros rows d e Hq Hrow Htrue Hshow. apply (Hloop rows (VDict d) e); [done..|].
    unfold attach_agents. cbn [get field] in *. by rewrite bind_Ok, Htrue, Hshow.
  - intros Hq. unfold recent_chatroom_list, recent_chatroom_list_try.
    by rewrite Hq.
Qed.

(** A lost connection and an agent list helper that fails both end in the
    empty list. *)
Lemma recent_errors_swallowed_witness :
  recent_chatroom_list (store := broken_query) 99 3 = Ok empty_list
  ∧ recent_chatroom_list (store := broken_agents) 99 3 = Ok empty_list.
Proof.
  split.
  - destruct (recent_errors_swallowed broken_query 99 3) as (_ & H & _).
    by eapply H.
  - destruct (recent_errors_swallowed broken_agents 99 3) as (_ & _ & _ & H & _).
    eapply (H _ [("name", VStr "alpha"); ("description", VStr "about alpha");
                 ("chatroom_id", VInt 10); ("active", VInt 1);
                 ("app_id", VInt 100)]).
    + reflexivity.
    + left.
    + reflexivity.
    + reflexivity.
Defined.





(** *** The recent rooms, over [spec_store] *)

Lemma Forall2_elem_of_l {A B} (P : A → B → Prop) (l : list A) (k : list B) :
  Forall2 P l k → Forall2 (λ x y, x ∈ l ∧ P x y) l k.
Proof.
  intros H.
  cut (∀ L : list A, Forall (λ x, x ∈ L) l → Forall2 (λ x y, x ∈ L ∧ P x y) l k).
  { intros Hcut. apply Hcut. by apply Forall_forall. }
  induction H as [|x y l k Hxy _ IH]; intros L HL; [constructor|].
  apply Forall_cons in HL as [??]. constructor; auto.
Qed.

Lemma max_list_spec (l : list Z) (m : Z) :
  max_list l = Some m → m ∈ l ∧ Forall (λ z, z ≤ m) l.
Proof.
  revert m. induction l as [|x l IH]; intros m; [done|].
  cbn [max_list foldr]. fold (max_list l).
  destruct (max_list l) as [m'|] eqn:Hl; intros [= <-].
  - destruct (IH m' eq_refl) as [Hin Hle].
    split.
    + destruct (Z.max_spec x m') as [[_ ->]|[_ ->]]; [by right|by left].
    + constructor; [lia|]. eapply Forall_impl; [exact Hle|]. simpl. lia.
  - destruct l; [|done]. split; [by left|]. by repeat constructor.
Qed.

Lemma elem_of_distinct_ids (x : Z) (l : list Z) : x ∈ distinct_ids l → x ∈ l.
Proof.
  induction l as [|y l IH]; simpl; [done|].
  intros [->|[Hx _]%elem_of_filter]%elem_of_cons; [by left|]. right. auto.
Qed.

Lemma elem_of_last_runs db (g : Z * option Z) :
  g ∈ last_runs db → g.2 = last_activity db g.1 ∧ is_Some g.2.
Proof.
  unfold last_runs. intros (k & -> & Hk%elem_of_distinct_ids)%list_elem_of_fmap.
  split; [done|]. simpl. unfold last_activity, run_times.
  apply list_elem_of_fmap in Hk as (r & -> & Hr).
  assert (r ∈ List.filter (λ r', rn_chatroom_id r' =? rn_chatroom_id r) (app_runs db))
    as Hin by (apply elem_of_filter; split; [done|apply Z.eqb_refl]).
  destruct (List.filter _ (app_runs db)); [by apply not_elem_of_nil in Hin|].
  by eexists.
Qed.

Lemma elem_of_recent_triples db (t : chatroom_row * app_row * (Z * option Z)) :
  t ∈ recent_triples db →
  ∃ time, t.2 = (cr_id t.1.1, Some time)
          ∧ last_activity db (cr_id t.1.1) = Some time.
Proof.
  unfold recent_triples. intros (ca & Ht & _)%list_elem_of_bind.
  apply list_elem_of_fmap in Ht as ([k o] & -> & [Hg Hid]%elem_of_filter).
  apply elem_of_last_runs in Hg as [Hact [time Htime]].
  apply Z.eqb_eq in Hid. simpl in *. exists time.
  by rewrite Hid, <-Hact, Htime.
Qed.

Lemma recent_rooms_sublist db (exclude uid : Z) :
  recent_rooms db exclude uid `sublist_of`
  sort_by recent_before
    (List.filter (λ t, recentb uid exclude t.1.1 t.1.2) (recent_triples db)).
Proof. apply sublist_take. Qed.

Lemma elem_of_recent_rooms db (exclude uid : Z) t :
  t ∈ recent_rooms db exclude uid →
  t ∈ recent_triples db ∧ cr_id t.1.1 ≠ exclude.
Proof.
  intros Ht. eapply elem_of_sublist in Ht; [|apply recent_rooms_sublist].
  apply elem_of_sort_by, elem_of_filter in Ht as [Ht Hb]. split; [done|].
  unfold recentb in Hb. rewrite !andb_true_iff, negb_true_iff, Z.eqb_neq in Hb.
  tauto.
Qed.

Lemma recent_rooms_sorted db (exclude uid : Z) :
  StronglySorted (λ t1 t2, default 0 t2.2.2 ≤ default 0 t1.2.2)
    (recent_rooms db exclude uid).
Proof.
  eapply StronglySorted_sublist; [apply recent_rooms_sublist|].
  apply (sort_by_sorted recent_before (λ t, default 0 t.2.2)
           (λ t, is_Some t.2.2)).
  - by intros [? [? ?]] [? [? ?]] [? [= ->]] [? [= ->]].
  - apply Forall_forall. intros t [Ht _]%elem_of_filter.
    apply elem_of_recent_triples in Ht as (time & -> & _). by eexists.
Qed.

Lemma execute_recent_query db show neg (exclude uid : Z) :
  execute_query (QueryLayer := spec_store db show neg) (recent_query uid exclude) =
    Ok (VDict <$> (recent_view <$> recent_rooms db exclude uid)).
Proof.
  cbn [execute_query spec_store]. unfold spec_execute_query, spec_select.
  by rewrite rows_of_recent.
Qed.

(** C6.  The list of [recent_chatroom_list] never holds the excluded room,
    has at most five items, and its rooms are in descending order of their
    last activity, the latest [created_time] of their runs. *)
Theorem recent_rooms_excluded_capped_ordered db show neg (exclude uid : Z) :
  ∃ list times,
    recent_chatroom_list (store := spec_store db show neg) exclude uid =
      Ok (VDict [("list", VList list)])
    ∧ (∀ item, item ∈ list → field item "chatroom_id" ≠ VInt exclude)
    ∧ (length list ≤ 5)%nat
    ∧ Forall2 (λ item time, ∃ rid, field item "chatroom_id" = VInt rid
                                   ∧ last_activity db rid = Some time)
        list times
    ∧ StronglySorted (λ a b, b ≤ a) times.
Proof.
  destruct (recent_chatroom_list (store := spec_store db show neg) exclude uid)
    as [v|e] eqn:Hv.
  2: { by apply recent_chatroom_list_never_raises in Hv. }
  destruct (recent_chatroom_list_Ok _ _ _ Hv) as [->|(rows & Hq & Hrows)].
  { exists [], []. split_and!; [done| |simpl; lia|constructor|constructor].
    by intros ? ?%not_elem_of_nil. }
  rewrite execute_recent_query in Hq. injection Hq as <-.
  assert (∃ list, v = VDict [("list", VList list)]) as [list ->].
  { revert Hv. unfold recent_chatroom_list, recent_chatroom_list_try, try_except.
    destruct (execute_query _); [|intros [= <-]; by eexists].
    rewrite bind_Ok. destruct (mapM _ _); intros [= <-]; by eexists. }
  change (items (VDict [("list", VList list)])) with list in Hrows.
  rewrite <-list_fmap_compose in Hrows. apply Forall2_fmap_l in Hrows.
  set (rooms := recent_rooms db exclude uid) in *.
  assert (Forall2 (λ t item, field item "chatroom_id" = VInt (cr_id t.1.1))
            rooms list) as Hids.
  { eapply Forall2_impl; [exact Hrows|]. intros t item [-> _]%attach_agents_Ok.
    by destruct t as [[[????????] [???????]] [??]]. }
  exists list, ((λ t, default 0 t.2.2) <$> rooms). split_and!.
  - done.
  - intros item [i Hi]%list_elem_of_lookup.
    destruct (Forall2_lookup_r _ _ _ _ _ Hids Hi) as (t & Ht & ->).
    apply list_elem_of_lookup_2, elem_of_recent_rooms in Ht as [_ Hne].
    by intros [= ?].
  - rewrite <-(Forall2_length _ _ _ Hids). unfold rooms, recent_rooms.
    rewrite length_take. lia.
  - apply Forall2_fmap_r, Forall2_flip.
    eapply Forall2_impl; [apply Forall2_elem_of_l, Hids|].
    intros t item [Ht Hid]. exists (cr_id t.1.1). split; [done|].
    apply elem_of_recent_rooms in Ht as [Ht _].
    apply elem_of_recent_triples in Ht as (time & -> & ->). done.
  - apply (StronglySorted_fmap _ (λ t1 t2, default 0 t2.2.2 ≤ default 0 t1.2.2));
      [done|]. apply recent_rooms_sorted.
Qed.

Example recent_rooms_of_demo :
  recent_chatroom_list (store := spec_store demo demo_agents Refuses) 99 3 =
    Ok (VDict [("list", VList
      [VDict [("name", VStr "alpha"); ("description", VStr "about alpha");
              ("chatroom_id", VInt 10); ("active", VInt 1); ("app_id", VInt 100);
              ("agent_list", VList [VInt 10])];
       VDict [("name", VStr "alpha"); ("description", VStr "about alpha");
              ("chatroom_id", VInt 14); ("active", VInt 1); ("app_id", VInt 100);
              ("agent_list", VList [VInt 14])]])])
  ∧ last_activity demo 10 = Some 90 ∧ last_activity demo 14 = Some 70.
Proof. by vm_compute. Qed.

(** *** Pagination arguments *)


(** A page size of 0 reaches the division. *)
Lemma page_size_zero_not_validated :
  ¬ validates_pagination (all_chat_room_list (store := spec_store demo demo_agents Refuses)).
Proof.
  intros Hval. destruct (Hval 1 0 3 "") as [Hsize _].
  destruct Hsize as [Hrej|(size & Hsize & Hclamp)]; [lia|done|].
  rewrite !all_chat_room_list_eval in Hclamp.
  rewrite !accepts_nonneg in Hclamp by lia. cbv zeta in Hclamp.
  destruct (truediv _ (VInt size)) as [quotient|e] eqn:Hdiv.
  - by rewrite bind_Ok in Hclamp.
  - by apply truediv_raises in Hdiv as [[_ ->]|[-> _]]; [lia|].
Qed.

(** C8, as the code has it.  [all_chat_room_list] checks neither argument:
    it never raises a validation error; a page size of 0 ends in the
    [ZeroDivisionError] of the division; and a call that returns has cut the
    page with LIMIT page_size and OFFSET (page - 1) * page_size and repeats
    both arguments as they were given. *)
Theorem pagination_passed_through db show neg (page page_size uid : Z) (name : string) :
  let result :=
    all_chat_room_list (store := spec_store db show neg) page page_size uid name in
  result ≠ Raise ValueError
  ∧ (page_size = 0 → result = Raise ZeroDivisionError)
  ∧ ∀ v, result = Ok v →
      field v "page" = VInt page
      ∧ field v "page_size" = VInt page_size
      ∧ items v =
          room_item db <$>
            window (Some page_size) (Some ((page - 1) * page_size))
              (sort_by room_before (visible_rooms db uid name)).
Proof.
  intros result. split_and!.
  - unfold result. rewrite all_chat_room_list_eval.
    destruct (accepts _ _ _); [|done]. cbv zeta.
    destruct (truediv _ _) as [quotient|e] eqn:Hdiv; [by rewrite bind_Ok|].
    by apply truediv_raises in Hdiv as [[-> _]|[-> _]].
  - intros ->. unfold result. rewrite all_chat_room_list_eval.
    by rewrite Z.mul_0_r, accepts_nonneg.
  - by intros v (quotient & _ & ->)%all_chat_room_list_Ok.
Qed.

Lemma pagination_passed_through_witness :
  all_chat_room_list (store := spec_store demo demo_agents Refuses) 1 0 3 "" =
    Raise ZeroDivisionError
  ∧ field demo_page "page" = VInt 1
  ∧ field demo_page "page_size" = VInt 10.
Proof.
  destruct (pagination_passed_through demo demo_agents Refuses 1 0 3 "") as (_ & H0 & _).
  destruct (pagination_passed_through demo demo_agents Refuses 1 10 3 "") as (_ & _ & H).
  split; [by apply H0|]. destruct (H demo_page) as (? & ? & _); [reflexivity|done].
Defined.

(* ===================================================================== *)
(** ** Further properties *)
(* ===================================================================== *)

(** *** The existence check *)

Lemma select_one_agent_id db (aid : Z) :
  spec_select_one db Agents (agent_id_query aid) =
    Ok (match List.filter (λ a, ag_id a =? aid) (agents db) with
        | a :: _ => VDict [("id", VInt (ag_id a))]
        | [] => VNone
        end).
Proof.
  unfold spec_select_one, rows_of; simpl.
  change (table_rows db Agents) with (agent_dict <$> agents db).
  erewrite (run_select_lift agent_dict) with
    (view := λ a, [("id", VInt (ag_id a))])
    (L := List.filter (λ a, ag_id a =? aid) (agents db))
    (L' := List.filter (λ a, ag_id a =? aid) (agents db)).
  - unfold window. by destruct (List.filter _ (agents db)).
  - apply matching_table. intros [???]. sql_compute. by rewrite andb_true_r.
  - done.
  - by intros [???].
Qed.

Lemma search_agent_id_eval db show neg (aid : Z) :
  search_agent_id (store := spec_store db show neg) aid =
    Ok (match List.filter (λ a, ag_id a =? aid) (agents db) with
        | _ :: _ => found
        | [] => not_found
        end).
Proof.
  unfold search_agent_id.
  change (select_one Agents _) with (spec_select_one db Agents (agent_id_query aid)).
  rewrite select_one_agent_id, bind_Ok.
  by destruct (List.filter _ (agents db)).
Qed.

Lemma agent_exists_filter db (aid : Z) :
  (∃ a, a ∈ agents db ∧ ag_id a = aid) ↔
  List.filter (λ a, ag_id a =? aid) (agents db) ≠ [].
Proof.
  split.
  - intros (a & Ha & Hid) Hnil.
    assert (a ∈ List.filter (λ a, ag_id a =? aid) (agents db)) as Hin
      by (apply elem_of_filter; split; [done|by apply Z.eqb_eq]).
    rewrite Hnil in Hin. by apply not_elem_of_nil in Hin.
  - destruct (List.filter _ (agents db)) as [|a l] eqn:Hf; [done|]. intros _.
    assert (a ∈ List.filter (λ a, ag_id a =? aid) (agents db)) as Hin
      by (rewrite Hf; left).
    apply elem_of_filter in Hin as [? ?%Z.eqb_eq]. eauto.
Qed.

Lemma search_agent_id_found_agent db show neg (aid : Z) :
  search_agent_id (store := spec_store db show neg) aid = Ok found →
  ∃ a, a ∈ agents db ∧ ag_id a = aid.
Proof.
  rewrite search_agent_id_eval. intros Hfound. apply agent_exists_filter.
  by destruct (List.filter _ (agents db)).
Qed.

(** X1.  [search_agent_id] answers [{status: 1}] exactly when the agents
    table has a row with the given id and [{status: 0}] exactly when it has
    none; it does not raise. *)
Theorem search_agent_id_found_iff db show neg (aid : Z) :
  let result := search_agent_id (store := spec_store db show neg) aid in
  (result = Ok found ↔ ∃ a, a ∈ agents db ∧ ag_id a = aid)
  ∧ (result = Ok not_found ↔ ¬ ∃ a, a ∈ agents db ∧ ag_id a = aid)
  ∧ ∀ e, result ≠ Raise e.
Proof.
  intros result. unfold result. rewrite search_agent_id_eval, agent_exists_filter.
  destruct (List.filter _ (agents db)) as [|a l]; split_and!; try done;
    split; try done.
  - intros _ Hne. by apply Hne.
  - intros Hnot. destruct Hnot. done.
Qed.

Lemma search_agent_id_found_iff_witness :
  search_agent_id (store := spec_store demo demo_agents Refuses) 5 = Ok found
  ∧ search_agent_id (store := spec_store demo demo_agents Refuses) 8 = Ok not_found.
Proof.
  split.
  - apply (search_agent_id_found_iff demo demo_agents Refuses 5).
    eexists. split; [left|reflexivity].
  - apply (search_agent_id_found_iff demo demo_agents Refuses 8).
    intros (a & Ha%list_elem_of_In & Hid). simpl in Ha.
    destruct Ha as [<-|[<-|[]]]; simpl in Hid; lia.
Defined.

(** *** The existence check and the hydration *)

Lemma agent_info_None db (aid : Z) :
  (∀ a, a ∈ agents db → ag_id a ≠ aid) → agent_info db aid = VNone.
Proof.
  intros Hnone. unfold agent_info.
  destruct (List.filter _ (agent_pairs db)) as [|q qs] eqn:Hq; [done|].
  assert (q ∈ List.filter (λ p, ag_id p.1 =? aid) (agent_pairs db))
    as [Hin Hq']%elem_of_filter by (rewrite Hq; left).
  apply Z.eqb_eq in Hq'. unfold agent_pairs in Hin.
  apply list_elem_of_bind in Hin as (a & Hin & Ha). destruct (Hnone a Ha).
  destruct (List.filter _ (apps db)).
  - by apply list_elem_of_singleton in Hin as ->.
  - by apply list_elem_of_fmap in Hin as (? & -> & _).
Qed.

Lemma agent_info_found db (aid : Z) (a : agent_row) :
  a ∈ agents db → ag_id a = aid →
  ∃ p, agent_info db aid = VDict (agent_view p) ∧ ag_id p.1 = aid
       ∧ p ∈ agent_pairs db.
Proof.
  intros Ha Hid. unfold agent_info.
  assert (∃ o, (a, o) ∈ agent_pairs db) as [o Ho].
  { unfold agent_pairs. setoid_rewrite list_elem_of_bind.
    destruct (List.filter (λ p, ap_id p =? ag_app_id a) (apps db)) as [|y m] eqn:Hm.
    - exists None, a. rewrite Hm. split; [left|done].
    - exists (Some y), a. rewrite Hm. split; [left|done]. }
  assert ((a, o) ∈ List.filter (λ p, ag_id p.1 =? aid) (agent_pairs db)) as Hin
    by (apply elem_of_filter; split; [done|by apply Z.eqb_eq]).
  destruct (List.filter _ (agent_pairs db)) as [|p ps] eqn:Hf.
  { by apply not_elem_of_nil in Hin. }
  assert (p ∈ List.filter (λ p, ag_id p.1 =? aid) (agent_pairs db))
    as [Hp Hpid%Z.eqb_eq]%elem_of_filter by (rewrite Hf; left).
  by exists p.
Qed.

(** X2.  The existence check and the hydration agree: in a room of a returned
    page, when [search_agent_id] finds the agent of every link of the room
    that has a positive agent id, no entry of the agent list is [None], and
    the agent ids of the entries are those of the positive links, link by
    link. *)
Theorem checked_agents_are_hydrated db show neg (page page_size uid : Z)
    (name : string) (v item : value) (rid : Z) :
  all_chat_room_list (store := spec_store db show neg) page page_size uid name = Ok v →
  item ∈ items v →
  field item "chatroom_id" = VInt rid →
  (∀ l, l ∈ chatroom_agent_relation db → rl_chatroom_id l = rid →
        0 < rl_agent_id l →
        search_agent_id (store := spec_store db show neg) (rl_agent_id l) = Ok found) →
  ∃ entries links,
    field item "agent_list" = VList entries
    ∧ (VNone ∉ entries)
    ∧ (λ entry, field entry "agent_id") <$> entries
        = (λ l, VInt (rl_agent_id l)) <$> links
    ∧ links ≡ₚ List.filter (λ l, (rl_chatroom_id l =? rid) && (0 <? rl_agent_id l))
                 (chatroom_agent_relation db).
Proof.
  intros Hv Hitem Hid Hchecked.
  rewrite (all_chat_room_list_items _ _ _ _ _ _ _ _ Hv) in Hitem.
  apply list_elem_of_fmap in Hitem as (p & -> & _).
  destruct (room_item_fields db p) as (Hid' & _ & Hagents).
  rewrite Hid' in Hid. injection Hid as <-.
  assert (∀ l, l ∈ agent_links db (cr_id p.1) →
            ∃ q, agent_info db (rl_agent_id l) = VDict (agent_view q)
                 ∧ ag_id q.1 = rl_agent_id l) as Hinfo.
  { intros l Hl. pose proof (agent_links_Forall db (cr_id p.1)) as Hall.
    rewrite Forall_forall in Hall. destruct (Hall l Hl) as (Hin & Hroom & Hpos).
    specialize (Hchecked l Hin Hroom Hpos).
    apply (search_agent_id_found_agent db show neg) in Hchecked as (a & Ha & Haid).
    destruct (agent_info_found db _ a Ha Haid) as (q & ? & ? & _). eauto. }
  exists (agent_entries db (cr_id p.1)), (agent_links db (cr_id p.1)).
  split_and!; [done| | |apply agent_links_Permutation].
  - unfold agent_entries. intros (l & Hnone & Hl)%list_elem_of_fmap.
    destruct (Hinfo l Hl) as (q & Hq & _). congruence.
  - unfold agent_entries. rewrite <-list_fmap_compose.
    apply list_fmap_ext. intros i l Hl%list_elem_of_lookup_2. simpl.
    destruct (Hinfo l Hl) as (q & -> & <-). done.
Qed.

(** Room 10 has one positive link, to agent 7, which exists. *)
Lemma checked_agents_are_hydrated_witness :
  ∃ entries links,
    field (room_item demo (room 10 3 100 1, app 100 1 5 "alpha")) "agent_list"
      = VList entries
    ∧ (VNone ∉ entries)
    ∧ (λ entry, field entry "agent_id") <$> entries
        = (λ l, VInt (rl_agent_id l)) <$> links
    ∧ links ≡ₚ List.filter (λ l, (rl_chatroom_id l =? 10) && (0 <? rl_agent_id l))
                 (chatroom_agent_relation demo).
Proof.
  apply (checked_agents_are_hydrated demo demo_agents Refuses 1 10 3 "" demo_page).
  - reflexivity.
  - vm_compute. right. left.
  - reflexivity.
  - intros l Hl%list_elem_of_In Hroom Hpos. simpl in Hl.
    repeat destruct Hl as [<-|Hl]; simpl in *; try lia; try reflexivity.
Defined.

(** *** The size of a page and the pages together *)

Lemma length_window {A} (limit offset : Z) (l : list A) :
  0 ≤ limit → 0 ≤ offset →
  Z.of_nat (length (window (Some limit) (Some offset) l)) =
    Z.min limit (Z.max 0 (Z.of_nat (length l) - offset)).
Proof.
  intros Hlimit Hoffset. unfold window. rewrite length_take, length_drop. lia.
Qed.

(** X3.  For a page of at least 1 and a page size of at least 1, a returned
    page holds [page_size] rooms as long as that many are left from its
    offset on, and what is left otherwise: its length is
    [min page_size (max 0 (total_count - (page - 1) * page_size))].  A page
    past the last one is empty, with total_count unchanged. *)
Theorem page_length db show neg (page page_size uid : Z) (name : string)
    (v : value) :
  1 ≤ page → 1 ≤ page_size →
  all_chat_room_list (store := spec_store db show neg) page page_size uid name = Ok v →
  ∃ total_count,
    field v "total_count" = VInt total_count
    ∧ Z.of_nat (length (items v)) =
        Z.min page_size (Z.max 0 (total_count - (page - 1) * page_size))
    ∧ (total_count ≤ (page - 1) * page_size → items v = []).
Proof.
  intros Hp Hs Hv.
  pose proof (all_chat_room_list_Ok _ _ _ _ _ _ _ _ Hv) as (quotient & _ & ->).
  exists (Z.of_nat (length (visible_rooms db uid name))).
  change (items _) with (room_item db <$> page_rooms db page page_size uid name).
  assert (Z.of_nat (length (room_item db <$> page_rooms db page page_size uid name))
          = Z.min page_size
              (Z.max 0 (Z.of_nat (length (visible_rooms db uid name))
                        - (page - 1) * page_size))) as Hlen.
  { rewrite length_fmap. unfold page_rooms. rewrite length_window by nia.
    by rewrite (Permutation_length (sort_by_perm room_before _)). }
  split_and!; [done|done|]. intros Hpast.
  apply length_zero_iff_nil. lia.
Qed.

(** Five rooms short of a second page: user 3 has two rooms, page 2 of ten is
    empty. *)
Lemma page_length_witness :
  ∃ total_count,
    field (VDict [("list", VList []); ("total_count", VInt 2);
                  ("total_pages", VInt 1); ("page", VInt 2);
                  ("page_size", VInt 10)]) "total_count" = VInt total_count
    ∧ Z.of_nat (length (items (VDict [("list", VList []); ("total_count", VInt 2);
                  ("total_pages", VInt 1); ("page", VInt 2);
                  ("page_size", VInt 10)]))) =
        Z.min 10 (Z.max 0 (total_count - (2 - 1) * 10))
    ∧ (total_count ≤ (2 - 1) * 10 →
       items (VDict [("list", VList []); ("total_count", VInt 2);
                  ("total_pages", VInt 1); ("page", VInt 2);
                  ("page_size", VInt 10)]) = []).
Proof.
  apply (page_length demo demo_agents Refuses 2 10 3 ""); [lia|lia|reflexivity].
Defined.

Lemma chunks_take {A} (size n : nat) (l : list A) :
  mjoin ((λ i, take size (drop (i * size) l)) <$> seq 0 n) = take (n * size) l.
Proof.
  induction n as [|n IH]; [done|].
  rewrite seq_S, fmap_app, join_app, IH. simpl.
  rewrite app_nil_r, take_take_drop. f_equal. lia.
Qed.

Lemma page_items_eval db show neg (page_size uid : Z) (name : string) (i : nat)
    (quotient : Q) :
  1 ≤ page_size →
  truediv (VInt (Z.of_nat (length (visible_rooms db uid name)))) (VInt page_size)
    = Ok quotient →
  page_items (store := spec_store db show neg) page_size uid name (S i) =
    room_item db <$>
      take (Z.to_nat page_size)
        (drop (i * Z.to_nat page_size)
           (sort_by room_before (visible_rooms db uid name))).
Proof.
  intros Hsize Hdiv. unfold page_items. rewrite all_chat_room_list_eval.
  rewrite accepts_nonneg by nia. cbv zeta. rewrite Hdiv, bind_Ok.
  change (items (VDict (("list", VList ?l) :: _))) with l.
  unfold page_rooms, window. do 3 f_equal. nia.
Qed.

(** X4.  The pages fit together: with a page size of at least 1 and below
    2^1075, and fewer than 2^53 rooms that match (the bounds within which the
    float quotient keeps its ceiling), the pages 1, 2, ..., total_pages one
    after the other are all the rooms that match, each once, in descending
    order of room id. *)
Theorem pages_cover_all_rooms db show neg (page_size uid : Z) (name : string)
    (v : value) (n : nat) :
  1 ≤ page_size < 2 ^ 1075 →
  Z.of_nat (length (visible_rooms db uid name)) < 2 ^ 53 →
  all_chat_room_list (store := spec_store db show neg) 1 page_size uid name = Ok v →
  field v "total_pages" = VInt (Z.of_nat n) →
  mjoin (page_items (store := spec_store db show neg) page_size uid name <$> seq 1 n)
    = room_item db <$> sort_by room_before (visible_rooms db uid name).
Proof.
  intros Hs Hcount Hv Hn.
  pose proof (all_chat_room_list_Ok _ _ _ _ _ _ _ _ Hv) as (quotient & Hdiv & ->).
  injection Hn as Hn.
  destruct (truediv_ceiling (Z.of_nat (length (visible_rooms db uid name)))
              page_size) as (quotient' & Hdiv' & _ & Hhi); [lia|lia|].
  rewrite Hdiv in Hdiv'. injection Hdiv' as <-. rewrite Hn in Hhi. clear Hn Hv.
  set (L := sort_by room_before (visible_rooms db uid name)).
  rewrite <-seq_shift, <-list_fmap_compose.
  rewrite (list_fmap_ext _
             (λ i, room_item db <$>
                     take (Z.to_nat page_size) (drop (i * Z.to_nat page_size) L)))
    by (intros; apply (page_items_eval _ _ _ _ _ _ _ quotient); [lia|done]).
  transitivity (room_item db <$> take (n * Z.to_nat page_size) L).
  - rewrite <-chunks_take. generalize (seq 0 n). intros idx.
    induction idx as [|i idx IH]; [done|]. csimpl. by rewrite fmap_app, IH.
  - rewrite take_ge; [done|]. unfold L.
    rewrite (Permutation_length (sort_by_perm room_before _)). nia.
Qed.

(** Two rooms, one a page: pages 1 and 2 together are the whole listing. *)
Lemma pages_cover_all_rooms_witness :
  mjoin (page_items (store := spec_store demo demo_agents Refuses) 1 3 "" <$> seq 1 2)
    = room_item demo <$> sort_by room_before (visible_rooms demo 3 "").
Proof.
  eapply (pages_cover_all_rooms demo demo_agents Refuses 1 3 "" _ 2);
    [split; [lia|reflexivity]|reflexivity|reflexivity|reflexivity].
Defined.

(** X5.  total_count is the number of rooms that match, whatever page is
    asked for: two calls that return for the same user and name filter give
    the same total_count, and the same total_pages when the page size is the
    same. *)
Theorem total_count_independent_of_page db show neg
    (page page' page_size page_size' uid : Z) (name : string) (v v' : value) :
  all_chat_room_list (store := spec_store db show neg) page page_size uid name = Ok v →
  all_chat_room_list (store := spec_store db show neg) page' page_size' uid name
    = Ok v' →
  field v "total_count" = field v' "total_count"
  ∧ (page_size = page_size' → field v "total_pages" = field v' "total_pages").
Proof.
  intros (quotient & Hdiv & ->)%all_chat_room_list_Ok
         (quotient' & Hdiv' & ->)%all_chat_room_list_Ok.
  split; [done|]. intros <-. rewrite Hdiv in Hdiv'. by injection Hdiv' as <-.
Qed.

Lemma total_count_independent_of_page_witness :
  field demo_page "total_count" = VInt 2
  ∧ (10 = 10 → field demo_page "total_pages" = VInt 1).
Proof.
  apply (total_count_independent_of_page demo demo_agents Refuses 1 2 10 10 3 ""
           demo_page
           (VDict [("list", VList []); ("total_count", VInt 2);
                   ("total_pages", VInt 1); ("page", VInt 2);
                   ("page_size", VInt 10)])); reflexivity.
Defined.

(** *** The name filter *)

Lemma filter_sublist_impl {A} (p q : A → bool) (l : list A) :
  (∀ x, p x = true → q x = true) →
  List.filter p l `sublist_of` List.filter q l.
Proof.
  intros Hpq. induction l as [|x l IH]; simpl; [done|].
  destruct (p x) eqn:Hp.
  - rewrite (Hpq x Hp). by constructor.
  - destruct (q x); [by constructor|done].
Qed.

Lemma visibleb_unfiltered uid name c a :
  visibleb uid name c a = true → visibleb uid "" c a = true.
Proof.
  unfold visibleb. rewrite !andb_true_iff. intros [? _]. done.
Qed.

Lemma visible_rooms_narrow db (uid : Z) (name : string) :
  visible_rooms db uid name `sublist_of` visible_rooms db uid "".
Proof.
  unfold visible_rooms. induction (chatrooms db) as [|c cs IH]; csimpl; [done|].
  apply sublist_app; [|done].
  apply fmap_sublist, filter_sublist_impl. intros a. apply visibleb_unfiltered.
Qed.

(** X6.  The name filter only narrows the listing: a call with a name filter
    counts at most as many rooms as a call without, and each of its rooms is
    a room of the listing without filter. *)
Theorem name_filter_narrows db show neg (page page_size page' page_size' uid : Z)
    (name : string) (v v' : value) :
  all_chat_room_list (store := spec_store db show neg) page page_size uid name = Ok v →
  all_chat_room_list (store := spec_store db show neg) page' page_size' uid "" = Ok v' →
  (∃ n n', field v "total_count" = VInt n ∧ field v' "total_count" = VInt n'
           ∧ n ≤ n')
  ∧ ∀ item, item ∈ items v →
      item ∈ room_item db <$> sort_by room_before (visible_rooms db uid "").
Proof.
  intros Hv Hv'. pose proof (all_chat_room_list_items _ _ _ _ _ _ _ _ Hv) as Hitems.
  apply all_chat_room_list_Ok in Hv as (quotient & _ & ->).
  apply all_chat_room_list_Ok in Hv' as (quotient' & _ & ->).
  pose proof (visible_rooms_narrow db uid name) as Hsub. split.
  - eexists _, _. split_and!; [done|done|].
    apply sublist_length in Hsub. lia.
  - rewrite Hitems. intros item (p & -> & Hp)%list_elem_of_fmap.
    apply list_elem_of_fmap_2, elem_of_sort_by.
    eapply elem_of_sublist; [|exact Hsub]. by apply elem_of_page_rooms in Hp.
Qed.

Lemma name_filter_narrows_witness :
  (∃ n n', field (VDict [("list", VList []); ("total_count", VInt 0);
                         ("total_pages", VInt 0); ("page", VInt 1);
                         ("page_size", VInt 10)]) "total_count" = VInt n
           ∧ field demo_page "total_count" = VInt n' ∧ n ≤ n')
  ∧ ∀ item, item ∈ items (VDict [("list", VList []); ("total_count", VInt 0);
                                 ("total_pages", VInt 0); ("page", VInt 1);
                                 ("page_size", VInt 10)]) →
      item ∈ room_item demo <$> sort_by room_before (visible_rooms demo 3 "").
Proof.
  apply (name_filter_narrows demo demo_agents Refuses 1 10 1 10 3 "beta"); reflexivity.
Defined.

(** *** Failures of the query layer *)

Section Failures.
Context {store : QueryLayer}.

(** X7.  [all_chat_room_list] has no handler.  Over any query layer, an
    exception of the count query or of the page query comes out of the call
    as it is, and when the hydration of any room of the page raises, the call
    raises: no page is returned with some rooms missing. *)
Theorem lister_errors_propagate (page page_size uid : Z) (name : string) :
  let result := all_chat_room_list page page_size uid name in
  (∀ e, select_one table_name (sent_count_query uid name) = Raise e →
        result = Raise e)
  ∧ (∀ count_row total_count e,
       select_one table_name (sent_count_query uid name) = Ok count_row →
       getitem count_row "count_id" = Ok total_count →
       select table_name (sent_page_query page page_size uid name) = Raise e →
       result = Raise e)
  ∧ (∀ count_row total_count rows row e,
       select_one table_name (sent_count_query uid name) = Ok count_row →
       getitem count_row "count_id" = Ok total_count →
       select table_name (sent_page_query page page_size uid name) = Ok rows →
       row ∈ rows → hydrate_room row = Raise e →
       ∃ e', result = Raise e').
Proof.
  intros result. unfold result, all_chat_room_list.
  change (select_one table_name _)
    with (select_one table_name (sent_count_query uid name)).
  change (select table_name _)
    with (select table_name (sent_page_query page page_size uid name)).
  split_and!.
  - by intros e ->.
  - intros count_row total_count e -> Hcount Hpage.
    by rewrite bind_Ok, Hcount, bind_Ok, Hpage.
  - intros count_row total_count rows row e -> Hcount -> Hrow Hraise.
    rewrite bind_Ok, Hcount, !bind_Ok.
    destruct (mapM_Raise hydrate_room rows row e Hrow Hraise) as [e' ->].
    by exists e'.
Qed.

End Failures.

(** The link query fails for the first room of the page. *)
Lemma lister_errors_propagate_witness :
  ∃ e, all_chat_room_list (store := broken_links) 1 10 3 "" = Raise e.
Proof.
  destruct (lister_errors_propagate (store := broken_links) 1 10 3 "")
    as (_ & _ & H).
  eapply (H _ _ _ (VDict [("name", VStr "alpha");
                          ("description", VStr "about alpha");
                          ("chatroom_id", VInt 14); ("chat_status", VInt 0);
                          ("active", VInt 1); ("chatroom_status", VInt 1);
                          ("smart_selection", VInt 1); ("app_id", VInt 100)])).
  - reflexivity.
  - reflexivity.
  - reflexivity.
  - left.
  - reflexivity.
Defined.

(** *** What the recent list keeps of its rows *)

Section Kept.
Context {store : QueryLayer}.

Lemma attach_agents_keeps (row item : value) (k : string) :
  attach_agents row = Ok item → k ≠ "agent_list" → field item k = field row k.
Proof.
  unfold attach_agents. destruct row as [| | | |d]; try done.
  cbn [get]. rewrite bind_Ok.
  destruct (truthy _); [|by intros [= <-]].
  destruct (show_chatroom_agent _) as [agent_list|]; [|done].
  rewrite bind_Ok. intros [= <-] Hk. cbn [field].
  by rewrite dict_lookup_set_other.
Qed.

(** X8.  Over any query layer, the list of [recent_chatroom_list] is all or
    nothing: it is empty, or it has one item for each row of the query, in
    the order of the rows, and each item keeps every field of its row other
    than agent_list as the query returned it. *)
Theorem recent_rows_kept (chatroom_id uid : Z) :
  ∃ list,
    recent_chatroom_list chatroom_id uid = Ok (VDict [("list", VList list)])
    ∧ (list = []
       ∨ ∃ rows,
           execute_query (recent_query uid chatroom_id) = Ok rows
           ∧ Forall2 (λ row item,
                        ∀ k, k ≠ "agent_list" → field item k = field row k)
               rows list).
Proof.
  unfold recent_chatroom_list, recent_chatroom_list_try, try_except.
  destruct (execute_query _) as [rows|]; [|exists []; by split; [|left]].
  rewrite bind_Ok. destruct (mapM attach_agents rows) as [l|] eqn:Hl.
  - rewrite bind_Ok. exists l. split; [done|]. right. exists rows. split; [done|].
    eapply Forall2_impl; [by apply mapM_Ok_Forall2|].
    intros row item Hrow k Hk. by apply attach_agents_keeps.
  - exists []. by split; [|left].
Qed.

End Kept.

(** *** The rooms of the recent list *)

Lemma elem_of_distinct_ids_2 (x : Z) (l : list Z) : x ∈ l → x ∈ distinct_ids l.
Proof.
  induction l as [|y l IH]; simpl; [done|].
  intros [->|Hx]%elem_of_cons; [by left|].
  destruct (Z.eqb_spec y x) as [->|Hne]; [by left|]. right.
  apply elem_of_filter. split; [auto|]. by apply negb_true_iff, Z.eqb_neq.
Qed.

Lemma elem_of_recent_triples_rows db (t : chatroom_row * app_row * (Z * option Z)) :
  t ∈ recent_triples db →
  t.1.1 ∈ chatrooms db ∧ t.1.2 ∈ apps db ∧ cr_app_id t.1.1 = ap_id t.1.2
  ∧ ∃ r, r ∈ app_runs db ∧ rn_chatroom_id r = cr_id t.1.1.
Proof.
  unfold recent_triples. intros (ca & Ht & Hca)%list_elem_of_bind.
  apply list_elem_of_fmap in Ht as (g & -> & [Hg Hid%Z.eqb_eq]%elem_of_filter).
  apply list_elem_of_bind in Hca as (c & Hca & Hc).
  apply list_elem_of_fmap in Hca as (a & -> & [Ha Happ%Z.eqb_eq]%elem_of_filter).
  simpl in *. split_and!; [done..|].
  unfold last_runs in Hg.
  apply list_elem_of_fmap in Hg as (k & -> & Hk%elem_of_distinct_ids).
  apply list_elem_of_fmap in Hk as (r & -> & Hr). simpl in Hid. eauto.
Qed.

Lemma recent_items_rooms db show neg (exclude uid : Z) (v item : value) :
  recent_chatroom_list (store := spec_store db show neg) exclude uid = Ok v →
  item ∈ items v →
  ∃ t, t ∈ recent_rooms db exclude uid
       ∧ field item "chatroom_id" = VInt (cr_id t.1.1)
       ∧ field item "app_id" = VInt (ap_id t.1.2).
Proof.
  intros [->|(rows & Hq & Hrows)]%recent_chatroom_list_Ok Hitem.
  { by apply not_elem_of_nil in Hitem. }
  rewrite execute_recent_query in Hq. injection Hq as <-.
  rewrite <-list_fmap_compose in Hrows. apply Forall2_fmap_l in Hrows.
  apply list_elem_of_lookup in Hitem as [i Hi].
  destruct (Forall2_lookup_r _ _ _ _ _ Hrows Hi) as (t & Ht & Hrow).
  exists t. split; [by eapply list_elem_of_lookup_2|].
  rewrite (attach_agents_keeps _ _ "chatroom_id" Hrow) by done.
  rewrite (attach_agents_keeps _ _ "app_id" Hrow) by done.
  by destruct t as [[[????????] [???????]] [??]].
Qed.

(** X9.  Every room of the recent list is an active room of the user whose
    application is active and of mode 5, and it has at least one run: a room
    that never ran is not in the list. *)
Theorem recent_rooms_are_visible db show neg (exclude uid : Z) (v item : value) :
  recent_chatroom_list (store := spec_store db show neg) exclude uid = Ok v →
  item ∈ items v →
  ∃ c a r,
    c ∈ chatrooms db ∧ a ∈ apps db ∧ r ∈ app_runs db
    ∧ field item "chatroom_id" = VInt (cr_id c)
    ∧ field item "app_id" = VInt (ap_id a)
    ∧ cr_app_id c = ap_id a ∧ rn_chatroom_id r = cr_id c
    ∧ cr_status c = 1 ∧ ap_status a = 1 ∧ ap_mode a = 5 ∧ cr_user_id c = uid.
Proof.
  intros Hv Hitem.
  destruct (recent_items_rooms _ _ _ _ _ _ _ Hv Hitem) as (t & Ht & Hid & Happ).
  eapply elem_of_sublist in Ht; [|apply recent_rooms_sublist].
  apply elem_of_sort_by, elem_of_filter in Ht as [Ht Hb].
  apply elem_of_recent_triples_rows in Ht as (Hc & Ha & Hjoin & r & Hr & Hrun).
  unfold recentb in Hb. rewrite !andb_true_iff, !Z.eqb_eq in Hb.
  destruct Hb as [[[[? ?] ?] ?] _].
  exists t.1.1, t.1.2, r. by split_and!.
Qed.

Lemma recent_rooms_are_visible_witness :
  ∃ c a r,
    c ∈ chatrooms demo ∧ a ∈ apps demo ∧ r ∈ app_runs demo
    ∧ field (VDict [("name", VStr "alpha"); ("description", VStr "about alpha");
                    ("chatroom_id", VInt 10); ("active", VInt 1);
                    ("app_id", VInt 100); ("agent_list", VList [VInt 10])])
        "chatroom_id" = VInt (cr_id c)
    ∧ field (VDict [("name", VStr "alpha"); ("description", VStr "about alpha");
                    ("chatroom_id", VInt 10); ("active", VInt 1);
                    ("app_id", VInt 100); ("agent_list", VList [VInt 10])])
        "app_id" = VInt (ap_id a)
    ∧ cr_app_id c = ap_id a ∧ rn_chatroom_id r = cr_id c
    ∧ cr_status c = 1 ∧ ap_status a = 1 ∧ ap_mode a = 5 ∧ cr_user_id c = 3.
Proof.
  eapply (recent_rooms_are_visible demo demo_agents Refuses 99 3).
  - reflexivity.
  - left.
Defined.

(** *** The lister, the recent list and the room lookup together *)

Lemma NoDup_key_eq {A} (key : A → Z) (l : list A) (x y : A) :
  NoDup (key <$> l) → x ∈ l → y ∈ l → key x = key y → x = y.
Proof.
  induction l as [|z l IH]; csimpl; [by intros _ ?%not_elem_of_nil|].
  intros [Hz Hl]%NoDup_cons [->|Hx]%elem_of_cons [->|Hy]%elem_of_cons Hkey.
  - done.
  - destruct Hz. rewrite Hkey. by apply list_elem_of_fmap_2.
  - destruct Hz. rewrite <-Hkey. by apply list_elem_of_fmap_2.
  - by apply IH.
Qed.

Lemma owned_room_is_found db show neg (rid uid : Z) (c : chatroom_row) :
  c ∈ chatrooms db → cr_id c = rid → cr_user_id c = uid → cr_status c = 1 →
  ∃ c', c' ∈ chatrooms db ∧ cr_id c' = rid ∧ cr_status c' = 1
        ∧ search_chatrooms_id (store := spec_store db show neg) rid uid
          = Ok (room_state c').
Proof.
  intros Hc Hid Huid Hstatus. rewrite search_chatrooms_id_eval.
  assert (c ∈ List.filter (ownedb rid uid) (chatrooms db)) as Hin
    by (apply elem_of_filter; split; [done|by apply ownedb_true]).
  destruct (List.filter _ (chatrooms db)) as [|c' cs] eqn:Hf.
  { by apply not_elem_of_nil in Hin. }
  assert (c' ∈ List.filter (ownedb rid uid) (chatrooms db))
    as [Hc' (? & ? & ?)%ownedb_true]%elem_of_filter by (rewrite Hf; left).
  by exists c'.
Qed.

(** X10.  A room that [all_chat_room_list] lists for a user is found by
    [search_chatrooms_id] for that room id and that user, with status 1; when
    [id] is the primary key of the rooms, the lookup gives the application id
    the listing gives. *)
Theorem listed_room_is_found db show neg (page page_size uid : Z) (name : string)
    (v item : value) (rid : Z) :
  all_chat_room_list (store := spec_store db show neg) page page_size uid name = Ok v →
  item ∈ items v →
  field item "chatroom_id" = VInt rid →
  ∃ state,
    search_chatrooms_id (store := spec_store db show neg) rid uid = Ok state
    ∧ field state "status" = VInt 1
    ∧ field state "chatroom_status" = VInt 1
    ∧ (NoDup (cr_id <$> chatrooms db) →
       field state "app_id" = field item "app_id").
Proof.
  intros Hv Hitem Hid.
  rewrite (all_chat_room_list_items _ _ _ _ _ _ _ _ Hv) in Hitem.
  apply list_elem_of_fmap in Hitem as ([c a] & -> & Hp).
  apply elem_of_page_rooms, elem_of_visible_rooms in Hp as (Hc & Ha & Hvis).
  apply visibleb_true in Hvis as (Happ & Hstatus & _ & _ & Huid).
  destruct (room_item_fields db (c, a)) as (Hid' & Happ' & _).
  rewrite Hid' in Hid. injection Hid as Hid. simpl in Hid.
  destruct (owned_room_is_found db show neg rid uid c Hc Hid Huid Hstatus)
    as (c' & Hc' & Hid'' & Hstatus' & ->).
  exists (room_state c'). split_and!; [done|done|by simpl; rewrite Hstatus'|].
  intros Hkey. rewrite Happ'.
  assert (c' = c) as -> by (apply (NoDup_key_eq cr_id (chatrooms db)); congruence).
  simpl. by rewrite Happ.
Qed.

Lemma listed_room_is_found_witness :
  ∃ state,
    search_chatrooms_id (store := spec_store demo demo_agents Refuses) 14 3 = Ok state
    ∧ field state "status" = VInt 1
    ∧ field state "chatroom_status" = VInt 1
    ∧ (NoDup (cr_id <$> chatrooms demo) →
       field state "app_id"
       = field (room_item demo (room 14 3 100 1, app 100 1 5 "alpha")) "app_id").
Proof.
  apply (listed_room_is_found demo demo_agents Refuses 1 10 3 "" demo_page).
  - reflexivity.
  - vm_compute. left.
  - reflexivity.
Defined.

(** X11.  A room of the recent list is a room of the listing without name
    filter, with the same room id and application id, and
    [search_chatrooms_id] finds it for the user. *)
Theorem recent_room_is_listed_and_found db show neg (exclude uid : Z)
    (v item : value) :
  recent_chatroom_list (store := spec_store db show neg) exclude uid = Ok v →
  item ∈ items v →
  (∃ listed,
     listed ∈ room_item db <$> sort_by room_before (visible_rooms db uid "")
     ∧ field listed "chatroom_id" = field item "chatroom_id"
     ∧ field listed "app_id" = field item "app_id")
  ∧ ∃ rid state,
      field item "chatroom_id" = VInt rid
      ∧ search_chatrooms_id (store := spec_store db show neg) rid uid = Ok state
      ∧ field state "status" = VInt 1.
Proof.
  intros Hv Hitem.
  destruct (recent_items_rooms _ _ _ _ _ _ _ Hv Hitem)
    as ([[c a] g] & Ht & Hid & Happ). simpl in *.
  eapply elem_of_sublist in Ht; [|apply recent_rooms_sublist].
  apply elem_of_sort_by, elem_of_filter in Ht as [Ht Hb].
  apply elem_of_recent_triples_rows in Ht as (Hc & Ha & Hjoin & _).
  unfold recentb in Hb. rewrite !andb_true_iff, !Z.eqb_eq in Hb.
  destruct Hb as [[[[Hstatus Hast] Hmode] Huid] _]. simpl in *. split.
  - exists (room_item db (c, a)). split_and!.
    + apply list_elem_of_fmap_2, elem_of_sort_by, elem_of_visible_rooms.
      split_and!; [done|done|]. unfold visibleb, name_matches. simpl.
      rewrite !andb_true_iff, !Z.eqb_eq. by split_and!.
    + by rewrite Hid.
    + by rewrite Happ.
  - destruct (owned_room_is_found db show neg (cr_id c) uid c Hc eq_refl Huid Hstatus)
      as (c' & _ & _ & _ & Hfound).
    exists (cr_id c), (room_state c'). by split_and!.
Qed.

Lemma recent_room_is_listed_and_found_witness :
  (∃ listed,
     listed ∈ room_item demo <$> sort_by room_before (visible_rooms demo 3 "")
     ∧ field listed "chatroom_id" = VInt 10
     ∧ field listed "app_id" = VInt 100)
  ∧ ∃ rid state,
      VInt 10 = VInt rid
      ∧ search_chatrooms_id (store := spec_store demo demo_agents Refuses) rid 3 = Ok state
      ∧ field state "status" = VInt 1.
Proof.
  eapply (recent_room_is_listed_and_found demo demo_agents Refuses 99 3 _
           (VDict [("name", VStr "alpha"); ("description", VStr "about alpha");
                   ("chatroom_id", VInt 10); ("active", VInt 1);
                   ("app_id", VInt 100); ("agent_list", VList [VInt 10])])).
  - reflexivity.
  - left.
Defined.

(** *** An agent whose application is missing *)

Lemma elem_of_agent_pairs db (p : agent_row * option app_row) :
  p ∈ agent_pairs db →
  p.1 ∈ agents db
  ∧ match p.2 with
    | Some y => y ∈ apps db ∧ ap_id y = ag_app_id p.1
    | None => True
    end.
Proof.
  unfold agent_pairs. intros (a & Hp & Ha)%list_elem_of_bind.
  destruct (List.filter _ (apps db)) as [|y m] eqn:Hm.
  - by apply list_elem_of_singleton in Hp as ->.
  - apply list_elem_of_fmap in Hp as (z & -> & Hz). simpl. split; [done|].
    rewrite <-Hm in Hz. by apply elem_of_filter in Hz as [? ?%Z.eqb_eq].
Qed.

(** X12.  The agent lookup of the hydration is a left join: for a link with a
    positive agent id whose agent exists while the application of the agent
    does not, the agent list still has an entry for the agent, with the
    fields of the application ([name], [description], [icon],
    [icon_background]) set to [None]. *)
Theorem agent_without_application db show neg (page page_size uid : Z)
    (name : string) (v item : value) (l : relation_row) (a : agent_row) :
  all_chat_room_list (store := spec_store db show neg) page page_size uid name = Ok v →
  item ∈ items v →
  l ∈ chatroom_agent_relation db →
  field item "chatroom_id" = VInt (rl_chatroom_id l) →
  0 < rl_agent_id l →
  NoDup (ag_id <$> agents db) →
  a ∈ agents db → ag_id a = rl_agent_id l →
  (∀ p, p ∈ apps db → ap_id p ≠ ag_app_id a) →
  ∃ entries,
    field item "agent_list" = VList entries
    ∧ VDict [("name", VNone); ("description", VNone);
             ("agent_id", VInt (ag_id a)); ("app_id", VInt (ag_app_id a));
             ("icon", VNone); ("icon_background", VNone);
             ("obligations", VStr (ag_obligations a))] ∈ entries.
Proof.
  intros Hv Hitem Hl Hid Hpos Hkey Ha Haid Horphan.
  rewrite (all_chat_room_list_items _ _ _ _ _ _ _ _ Hv) in Hitem.
  apply list_elem_of_fmap in Hitem as (q & -> & _).
  destruct (room_item_fields db q) as (Hid' & _ & Hagents).
  rewrite Hid' in Hid. injection Hid as Hid.
  exists (agent_entries db (cr_id q.1)). split; [done|].
  destruct (agent_info_found db _ a Ha Haid) as ([a' o] & Hinfo & Ha' & Hp).
  apply elem_of_agent_pairs in Hp as [Hin Ho]. simpl in *.
  assert (a' = a) as -> by (apply (NoDup_key_eq ag_id (agents db)); congruence).
  destruct o as [y|]; [destruct Ho as [Hy Happ]; by destruct (Horphan y Hy)|].
  change (VDict _) with (VDict (agent_view (a, None))). rewrite <-Hinfo.
  unfold agent_entries. apply list_elem_of_fmap. exists l. split; [done|].
  rewrite agent_links_Permutation. apply elem_of_filter. split; [done|].
  apply andb_true_iff. split; [apply Z.eqb_eq; lia|by apply Z.ltb_lt].
Qed.

(** Agent 9 of room 10 belongs to application 555, which does not exist. *)
Lemma agent_without_application_witness :
  ∃ entries,
    field (room_item demo_orphan (room 10 3 100 1, app 100 1 5 "alpha"))
      "agent_list" = VList entries
    ∧ VDict [("name", VNone); ("description", VNone);
             ("agent_id", VInt 9); ("app_id", VInt 555);
             ("icon", VNone); ("icon_background", VNone);
             ("obligations", VStr "guest")] ∈ entries.
Proof.
  eapply (agent_without_application demo_orphan demo_agents Refuses 1 10 3 "" _ _
            {| rl_id := 6; rl_chatroom_id := 10; rl_agent_id := 9 |}
            {| ag_id := 9; ag_app_id := 555; ag_obligations := "guest" |}).
  - reflexivity.
  - vm_compute. right. left.
  - left.
  - reflexivity.
  - simpl. lia.
  - apply (bool_decide_unpack _). vm_compute. exact I.
  - left.
  - reflexivity.
  - intros p Hp%list_elem_of_In. simpl in Hp.
    destruct Hp as [<-|[<-|[]]]; simpl; lia.
Defined.

(** *** When the recent list is complete *)

Lemma mapM_all_Ok {A B} (f : A → res B) (l : list A) :
  (∀ x, x ∈ l → ∃ y, f x = Ok y) → ∃ k, mapM f l = Ok k.
Proof.
  induction l as [|x l IH]; intros Hf; [by exists []|].
  destruct (Hf x) as [y Hy]; [left|].
  destruct IH as [k Hk]; [intros z Hz; apply Hf; by right|].
  exists (y :: k). by rewrite mapM_cons, Hy, bind_Ok, Hk.
Qed.

Lemma elem_of_recent_triples_2 db (c : chatroom_row) (a : app_row)
    (r : app_run_row) :
  c ∈ chatrooms db → a ∈ apps db → r ∈ app_runs db →
  cr_app_id c = ap_id a → rn_chatroom_id r = cr_id c →
  (c, a, (cr_id c, last_activity db (cr_id c))) ∈ recent_triples db.
Proof.
  intros Hc Ha Hr Happ Hrun. unfold recent_triples.
  apply list_elem_of_bind. exists (c, a). split.
  - apply list_elem_of_fmap. eexists. split; [done|].
    apply elem_of_filter. split; [|apply Z.eqb_refl].
    unfold last_runs. apply list_elem_of_fmap. exists (cr_id c). split; [done|].
    apply elem_of_distinct_ids_2. rewrite <-Hrun. by apply list_elem_of_fmap_2.
  - apply list_elem_of_bind. exists c. split; [|done].
    apply list_elem_of_fmap. exists a. split; [done|].
    apply elem_of_filter. split; [done|by apply Z.eqb_eq].
Qed.

(** X13.  Only the cap of five drops a room from the recent list: when the
    agent list helper does not raise and at most five joined rows pass the
    conditions of the query, every active room of the user, other than the
    excluded one, that has an active application of mode 5 and at least one
    run is in the list. *)
Theorem recent_list_complete db show neg (exclude uid : Z) (c : chatroom_row)
    (a : app_row) (r : app_run_row) :
  (∀ x, ∃ agent_list, show x = Ok agent_list) →
  (length (List.filter (λ t, recentb uid exclude t.1.1 t.1.2) (recent_triples db))
   ≤ 5)%nat →
  c ∈ chatrooms db → a ∈ apps db → r ∈ app_runs db →
  cr_app_id c = ap_id a → rn_chatroom_id r = cr_id c →
  cr_status c = 1 → ap_status a = 1 → ap_mode a = 5 → cr_user_id c = uid →
  cr_id c ≠ exclude →
  ∃ v item,
    recent_chatroom_list (store := spec_store db show neg) exclude uid = Ok v
    ∧ item ∈ items v
    ∧ field item "chatroom_id" = VInt (cr_id c)
    ∧ field item "app_id" = VInt (ap_id a).
Proof.
  intros Hshow Hcap Hc Ha Hr Happ Hrun Hstatus Hast Hmode Huid Hne.
  set (rooms := recent_rooms db exclude uid).
  assert ((c, a, (cr_id c, last_activity db (cr_id c))) ∈ rooms) as Ht.
  { unfold rooms, recent_rooms. rewrite take_ge.
    2: { by rewrite (Permutation_length (sort_by_perm recent_before _)). }
    apply elem_of_sort_by, elem_of_filter. split.
    - by apply (elem_of_recent_triples_2 db c a r).
    - unfold recentb. simpl.
      rewrite !andb_true_iff, negb_true_iff, !Z.eqb_eq, Z.eqb_neq. by split_and!. }
  destruct (mapM_all_Ok (attach_agents (store := spec_store db show neg))
              (VDict <$> (recent_view <$> rooms))) as [list Hlist].
  { intros row (d & -> & _)%list_elem_of_fmap. unfold attach_agents.
    cbn [get]. rewrite bind_Ok. destruct (truthy _); [|by eexists].
    cbn [show_chatroom_agent spec_store].
    destruct (Hshow (default VNone (dict_lookup "chatroom_id" d))) as [al ->].
    rewrite bind_Ok. by eexists. }
  exists (VDict [("list", VList list)]).
  apply mapM_Ok_Forall2 in Hlist as Hrows.
  rewrite <-list_fmap_compose in Hrows. apply Forall2_fmap_l in Hrows.
  apply list_elem_of_lookup in Ht as [i Hi].
  destruct (Forall2_lookup_l _ _ _ _ _ Hrows Hi) as (item & Hitem & Hrow).
  exists item. split_and!.
  - unfold recent_chatroom_list, recent_chatroom_list_try.
    rewrite execute_recent_query, bind_Ok. fold rooms. by rewrite Hlist.
  - by eapply list_elem_of_lookup_2.
  - rewrite (attach_agents_keeps _ _ "chatroom_id" Hrow) by done.
    by destruct c, a.
  - rewrite (attach_agents_keeps _ _ "app_id" Hrow) by done.
    by destruct c, a.
Qed.

Lemma recent_list_complete_witness :
  ∃ v item,
    recent_chatroom_list (store := spec_store demo demo_agents Refuses) 99 3 = Ok v
    ∧ item ∈ items v
    ∧ field item "chatroom_id" = VInt 14
    ∧ field item "app_id" = VInt 100.
Proof.
  apply (recent_list_complete demo demo_agents Refuses 99 3 (room 14 3 100 1)
           (app 100 1 5 "alpha")
           {| rn_id := 2; rn_chatroom_id := 14; rn_created_time := 70 |}).
  - intros x. by eexists.
  - vm_compute. lia.
  - apply list_elem_of_In. simpl. tauto.
  - left.
  - right. left.
  - reflexivity.
  - reflexivity.
  - reflexivity.
  - reflexivity.
  - reflexivity.
  - reflexivity.
  - simpl. lia.
Defined.
